(** * check-cnames: dangling CNAME scanner (src/main.go)

    A shallow embedding of the per-domain pipeline of [main.go] and the
    properties of its specification.

    Conventions of the model.
    - A Go [string] is a [string] of bytes; where Go reads it as text, the
      model decodes UTF-8 as package [utf8] does.  The classifier, whose
      input is a name unpacked by the dns package (printable ASCII, other
      bytes escaped), lowercases by [strings.ToLower], the ASCII path of the
      Go function; the dispatcher, whose input is any line of standard
      input, by [strings.ToLowerUTF8], the whole function.  The case tables
      of package [unicode] above ASCII are not part of this repository and
      are a parameter.
    - Go's [int] and [time.Duration] are 64-bit signed integers: values of
      [Z] with the wrap-around of every arithmetic operation written out.
    - The network (DNS exchanges, host lookups), the random source and the
      iteration order of Go maps are oracles of an environment; a function
      that talks to them runs in the monad [M], which threads a clock that
      numbers the oracle calls and collects the events the code produces.
    - A loop that may not terminate takes fuel; running out of fuel is the
      divergence of the monad. *)

From Stdlib Require Import ZArith List String Ascii Bool Lia Permutation Arith.
Import ListNotations.
Local Open Scope string_scope.
Local Open Scope Z_scope.

(** ** Bytes and runes *)

(** The value of a byte, and the byte of a value (its low eight bits). *)
Definition byte (c : ascii) : Z := Z.of_N (N_of_ascii c).
Definition char (b : Z) : ascii := ascii_of_N (Z.to_N (b mod 256)).

(** [s[i]], for [i] within the string. *)
Definition byteAt (s : string) (i : nat) : Z :=
  match String.get i s with
  | Some c => byte c
  | None => 0
  end.

(** [s[n:]] *)
Fixpoint drop (n : nat) (s : string) : string :=
  match n, s with
  | O, _ => s
  | S _, EmptyString => EmptyString
  | S n', String _ s' => drop n' s'
  end.

(** Package [unicode/utf8]. *)
Module utf8.

Definition RuneError : Z := 65533.
Definition RuneSelf : Z := 128.
Definition MaxRune : Z := 1114111.

(** [utf8.RuneStart]: not a continuation byte. *)
Definition RuneStart (b : Z) : bool := negb (Z.land b 192 =? 128).

(** [utf8.DecodeRuneInString]: the first rune of [s] and its width in bytes;
    [(RuneError, 0)] for the empty string, [(RuneError, 1)] for an encoding
    that is invalid or cut short.  The width by the first byte, and the
    range accepted for the second, are those of the package's tables. *)
Definition DecodeRuneInString (s : string) : Z * nat :=
  match s with
  | EmptyString => (RuneError, O)
  | String c0 rest =>
      let p0 := byte c0 in
      if p0 <? 128 then (p0, 1%nat)
      else if (p0 <? 194) || (244 <? p0) then (RuneError, 1%nat)
      else
        let sz := if p0 <? 224 then 2%nat else if p0 <? 240 then 3%nat else 4%nat in
        let lo := if p0 =? 224 then 160 else if p0 =? 240 then 144 else 128 in
        let hi := if p0 =? 237 then 159 else if p0 =? 244 then 143 else 191 in
        if (String.length s <? sz)%nat then (RuneError, 1%nat)
        else
          match rest with
          | EmptyString => (RuneError, 1%nat)
          | String c1 rest1 =>
              let b1 := byte c1 in
              if (b1 <? lo) || (hi <? b1) then (RuneError, 1%nat)
              else if (sz <=? 2)%nat
              then (Z.lor (Z.shiftl (Z.land p0 31) 6) (Z.land b1 63), 2%nat)
              else
                match rest1 with
                | EmptyString => (RuneError, 1%nat)
                | String c2 rest2 =>
                    let b2 := byte c2 in
                    if (b2 <? 128) || (191 <? b2) then (RuneError, 1%nat)
                    else if (sz <=? 3)%nat
                    then (Z.lor (Z.shiftl (Z.land p0 15) 12)
                            (Z.lor (Z.shiftl (Z.land b1 63) 6) (Z.land b2 63)),
                          3%nat)
                    else
                      match rest2 with
                      | EmptyString => (RuneError, 1%nat)
                      | String c3 _ =>
                          let b3 := byte c3 in
                          if (b3 <? 128) || (191 <? b3) then (RuneError, 1%nat)
                          else (Z.lor (Z.shiftl (Z.land p0 7) 18)
                                  (Z.lor (Z.shiftl (Z.land b1 63) 12)
                                     (Z.lor (Z.shiftl (Z.land b2 63) 6)
                                            (Z.land b3 63))),
                                4%nat)
                      end
                end
          end
  end.

(** Where [utf8.DecodeLastRuneInString] starts to decode: at the nearest
    start byte among the three bytes before the last, else four bytes
    before the last, else at the beginning. *)
Definition lastStart (s : string) : nat :=
  let e := String.length s in
  if (2 <=? e)%nat && RuneStart (byteAt s (e - 2)) then (e - 2)%nat
  else if (3 <=? e)%nat && RuneStart (byteAt s (e - 3)) then (e - 3)%nat
  else if (4 <=? e)%nat && RuneStart (byteAt s (e - 4)) then (e - 4)%nat
  else if (5 <=? e)%nat then (e - 5)%nat
  else O.

(** [utf8.DecodeLastRuneInString]: the last rune of [s] and its width. *)
Definition DecodeLastRuneInString (s : string) : Z * nat :=
  let e := String.length s in
  match e with
  | O => (RuneError, O)
  | S _ =>
      let r := byteAt s (e - 1) in
      if r <? RuneSelf then (r, 1%nat)
      else
        let start := lastStart s in
        let '(r', size) := DecodeRuneInString (substring start (e - start) s) in
        if (start + size =? e)%nat then (r', size) else (RuneError, 1%nat)
  end.

(** The bytes [utf8.AppendRune] appends for [r]: a value that is no scalar
    of Unicode (negative, above [MaxRune], a surrogate) is written as
    [RuneError]. *)
Definition EncodeRune (r : Z) : string :=
  if (0 <=? r) && (r <=? 127) then String (char r) EmptyString
  else if (0 <=? r) && (r <=? 2047) then
    String (char (Z.lor 192 (Z.shiftr r 6)))
      (String (char (Z.lor 128 (Z.land r 63))) EmptyString)
  else
    let r := if (r <? 0) || (MaxRune <? r) || ((55296 <=? r) && (r <=? 57343))
             then RuneError else r in
    if r <=? 65535 then
      String (char (Z.lor 224 (Z.shiftr r 12)))
        (String (char (Z.lor 128 (Z.land (Z.shiftr r 6) 63)))
           (String (char (Z.lor 128 (Z.land r 63))) EmptyString))
    else
      String (char (Z.lor 240 (Z.shiftr r 18)))
        (String (char (Z.lor 128 (Z.land (Z.shiftr r 12) 63)))
           (String (char (Z.lor 128 (Z.land (Z.shiftr r 6) 63)))
              (String (char (Z.lor 128 (Z.land r 63))) EmptyString))).

End utf8.

(** The conversion [string(runes)] of a slice of runes. *)
Fixpoint stringOfRunes (runes : list Z) : string :=
  match runes with
  | [] => EmptyString
  | r :: rest => utf8.EncodeRune r ++ stringOfRunes rest
  end.

(** Package [unicode]. *)
Module unicode.

Definition MaxASCII : Z := 127.
Definition MaxLatin1 : Z := 255.

(** [unicode.IsSpace]: the white space of Unicode's property White_Space. *)
Definition IsSpace (r : Z) : bool :=
  if (0 <=? r) && (r <=? MaxLatin1) then
    ((9 <=? r) && (r <=? 13)) || (r =? 32) || (r =? 133) || (r =? 160)
  else
    (r =? 5760) || ((8192 <=? r) && (r <=? 8202)) || (r =? 8232) || (r =? 8233)
    || (r =? 8239) || (r =? 8287) || (r =? 12288).

(** [unicode.ToLower]: on ASCII the letters [A]-[Z] move to [a]-[z]; above,
    the case tables of the package decide, here [caseTable]. *)
Definition ToLower (caseTable : Z -> Z) (r : Z) : Z :=
  if r <=? MaxASCII then
    if (65 <=? r) && (r <=? 90) then r + 32 else r
  else caseTable r.

End unicode.

(** ** Package [strings] *)

Module strings.

Definition isUpper (c : ascii) : bool :=
  ((65 <=? nat_of_ascii c) && (nat_of_ascii c <=? 90))%nat.

Definition lowerByte (c : ascii) : ascii :=
  if isUpper c then ascii_of_nat (nat_of_ascii c + 32) else c.

(** [strings.ToLower] on a string without bytes above 0x7f: the loop over
    the bytes that the function runs on such a string. *)
Fixpoint ToLower (s : string) : string :=
  match s with
  | EmptyString => EmptyString
  | String c s' => String (lowerByte c) (ToLower s')
  end.

(** [strings.HasPrefix] *)
Fixpoint HasPrefix (s p : string) {struct p} : bool :=
  match p, s with
  | EmptyString, _ => true
  | String _ _, EmptyString => false
  | String b p', String a s' => Ascii.eqb a b && HasPrefix s' p'
  end.

(** [strings.Contains]: [substr] occurs in [s] at some offset. *)
Fixpoint Contains (s substr : string) : bool :=
  HasPrefix s substr ||
  match s with
  | EmptyString => false
  | String _ s' => Contains s' substr
  end.

(** [strings.HasSuffix] *)
Definition HasSuffix (s suffix : string) : bool :=
  (String.length suffix <=? String.length s)%nat &&
  String.eqb (substring (String.length s - String.length suffix)
                        (String.length suffix) s) suffix.

(** [strings.TrimSuffix]: [s] without the given trailing suffix, once. *)
Definition TrimSuffix (s suffix : string) : string :=
  if HasSuffix s suffix
  then substring 0 (String.length s - String.length suffix) s
  else s.

(** Are all the bytes of [s] below [utf8.RuneSelf]? *)
Fixpoint isASCII (s : string) : bool :=
  match s with
  | EmptyString => true
  | String c s' => (byte c <? utf8.RuneSelf) && isASCII s'
  end.

(** [strings.TrimLeftFunc]: [s] from its first rune that does not satisfy
    [f], the empty string when there is none.  One turn of the loop over the
    runes per unit of fuel; the bytes of [s] are fuel enough. *)
Fixpoint trimLeftLoop (fuel : nat) (f : Z -> bool) (s : string) : string :=
  match fuel with
  | O => EmptyString
  | S fuel' =>
      match s with
      | EmptyString => EmptyString
      | String _ _ =>
          let '(r, width) := utf8.DecodeRuneInString s in
          if f r then trimLeftLoop fuel' f (drop width s) else s
      end
  end.

Definition TrimLeftFunc (s : string) (f : Z -> bool) : string :=
  trimLeftLoop (String.length s) f s.

(** [lastIndexFunc]: the index where the last rune of [s[0:i]] whose [f]
    is [truth] starts, walking back from [i]; [None] is Go's [-1]. *)
Fixpoint lastIndexLoop (fuel : nat) (f : Z -> bool) (truth : bool)
    (s : string) (i : nat) : option nat :=
  match fuel with
  | O => None
  | S fuel' =>
      match i with
      | O => None
      | S _ =>
          let '(r, size) := utf8.DecodeLastRuneInString (substring 0 i s) in
          let i' := (i - size)%nat in
          if Bool.eqb (f r) truth then Some i'
          else lastIndexLoop fuel' f truth s i'
      end
  end.

Definition lastIndexFunc (s : string) (f : Z -> bool) (truth : bool) : option nat :=
  lastIndexLoop (String.length s) f truth s (String.length s).

(** [strings.TrimRightFunc]: [s] up to the end of its last rune that does
    not satisfy [f]. *)
Definition TrimRightFunc (s : string) (f : Z -> bool) : string :=
  match lastIndexFunc s f false with
  | None => EmptyString
  | Some i =>
      if utf8.RuneSelf <=? byteAt s i
      then let '(_, wid) := utf8.DecodeRuneInString (drop i s) in
           substring 0 (i + wid) s
      else substring 0 (i + 1) s
  end.

(** [strings.TrimFunc] *)
Definition TrimFunc (s : string) (f : Z -> bool) : string :=
  TrimRightFunc (TrimLeftFunc s f) f.

(** [strings.TrimSpace]: [s] without its leading and trailing white space,
    as Unicode defines it.  (The Go function walks over ASCII bytes itself
    and hands over to [TrimFunc] at the first byte that is not ASCII; that
    is [TrimFunc] on the whole string.) *)
Definition TrimSpace (s : string) : string := TrimFunc s unicode.IsSpace.

(** [strings.Map]: every rune of [s], an invalid byte being [RuneError],
    replaced by its image under [mapping]; a negative image is dropped. *)
Fixpoint mapLoop (fuel : nat) (mapping : Z -> Z) (s : string) : string :=
  match fuel with
  | O => EmptyString
  | S fuel' =>
      match s with
      | EmptyString => EmptyString
      | String _ _ =>
          let '(c, width) := utf8.DecodeRuneInString s in
          let r := mapping c in
          (if r <? 0 then EmptyString else utf8.EncodeRune r)
          ++ mapLoop fuel' mapping (drop width s)
      end
  end.

Definition Map (mapping : Z -> Z) (s : string) : string :=
  mapLoop (String.length s) mapping s.

(** [strings.ToLower] in full: the loop over the bytes for a string without
    bytes above 0x7f, [Map] with [unicode.ToLower] for any other. *)
Definition ToLowerUTF8 (caseTable : Z -> Z) (s : string) : string :=
  if isASCII s then ToLower s else Map (unicode.ToLower caseTable) s.

End strings.

(** ** Iteration over a Go map

    [for k, v := range m] visits every entry of [m] once, in an order the
    language leaves unspecified and that may change from one loop to the
    next.  A map literal is kept as the list of its entries; the order of
    one [range] loop is decided by a list of choices: each choice picks, by
    its position, the next entry among those not visited yet. *)

Fixpoint extract {A : Type} (n : nat) (l : list A) {struct l} : option (A * list A) :=
  match l with
  | [] => None
  | x :: t =>
      match n with
      | O => Some (x, t)
      | S n' =>
          match extract n' t with
          | Some (y, r) => Some (y, x :: r)
          | None => None
          end
      end
  end.

Fixpoint rangeOrder {A : Type} (choices : list nat) (m : list A) : list A :=
  match choices with
  | [] => m
  | c :: choices' =>
      match extract (c mod List.length m)%nat m with
      | Some (x, r) => x :: rangeOrder choices' r
      | None => []
      end
  end.

(** ** The Vulnerable-Service Table and the classifier *)

(** The map literal [vulnerablePatterns] of [checkVulnerableService]. *)
Definition vulnerablePatterns : list (string * string) :=
  [ (".s3.amazonaws.com", "AWS S3");
    (".s3-website", "AWS S3");
    (".s3.dualstack", "AWS S3");
    (".cloudfront.net", "AWS CloudFront");
    (".elasticbeanstalk.com", "AWS Elastic Beanstalk");
    (".herokuapp.com", "Heroku");
    (".herokudns.com", "Heroku");
    (".wordpress.com", "WordPress");
    (".pantheonsite.io", "Pantheon");
    (".github.io", "GitHub Pages");
    (".gitlab.io", "GitLab Pages");
    (".surge.sh", "Surge.sh");
    (".bitbucket.io", "Bitbucket");
    (".zendesk.com", "Zendesk");
    (".desk.com", "Desk.com");
    (".fastly.net", "Fastly");
    (".feedpress.me", "FeedPress");
    (".ghost.io", "Ghost");
    (".helpjuice.com", "Helpjuice");
    (".helpscoutdocs.com", "HelpScout");
    (".azurewebsites.net", "Azure");
    (".cloudapp.azure.com", "Azure");
    (".cloudapp.net", "Azure");
    (".trafficmanager.net", "Azure Traffic Manager");
    (".blob.core.windows.net", "Azure Blob");
    (".azureedge.net", "Azure CDN");
    (".azure-api.net", "Azure API Management");
    (".azurefd.net", "Azure Front Door");
    (".statuspage.io", "StatusPage");
    (".uservoice.com", "UserVoice");
    (".smartling.com", "Smartling");
    (".tictail.com", "Tictail");
    (".campaignmonitor.com", "Campaign Monitor");
    (".createsend.com", "CreateSend");
    (".acquia-sites.com", "Acquia");
    (".proposify.biz", "Proposify");
    (".simplebooklet.com", "Simplebooklet");
    (".getresponse.com", "GetResponse");
    (".vend.com", "Vend");
    (".jetbrains.space", "JetBrains Space");
    (".myjetbrains.com", "JetBrains");
    (".netlify.app", "Netlify");
    (".netlify.com", "Netlify");
    (".vercel.app", "Vercel");
    (".now.sh", "Vercel") ].

(** The body of the [range] loop of [checkVulnerableService], over the
    entries in the order the loop visits them: the service of the first
    visited pattern that [cname] contains, [""] after the loop. *)
Fixpoint firstMatch (cname : string) (visited : list (string * string)) : string :=
  match visited with
  | [] => ""
  | (pattern, service) :: rest =>
      if strings.Contains cname pattern then service else firstMatch cname rest
  end.

(** [checkVulnerableService], with the choices that fix the order of its
    [range] loop over the map. *)
Definition checkVulnerableService (choices : list nat) (cname : string) : string :=
  let cname := strings.ToLower cname in
  firstMatch cname (rangeOrder choices vulnerablePatterns).

(** ** Machine integers *)

Definition min_int : Z := - 2 ^ 63.
Definition max_int : Z := 2 ^ 63 - 1.

(** The value a 64-bit signed integer holds after an operation whose
    mathematical result is [z]. *)
Definition wrap64 (z : Z) : Z := (z + 2 ^ 63) mod 2 ^ 64 - 2 ^ 63.

Definition int_add (a b : Z) : Z := wrap64 (a + b).

(** Package [time]: a [Duration] is an [int64] count of nanoseconds. *)
Module time.

Definition Duration : Type := Z.
Definition Nanosecond : Duration := 1.
Definition Millisecond : Duration := 1000000.
Definition Second : Duration := 1000000000.
Definition mul (a b : Duration) : Duration := wrap64 (a * b).

End time.

(** ** Configuration *)

Record Config : Type := mkConfig {
  concurrency : Z;
  timeout : time.Duration;
  verbose : bool;
  resolvers : list string;
  retries : Z
}.

(** The resolver pool [main] installs. *)
Definition defaultResolvers : list string :=
  [ "1.1.1.1"; "1.0.0.1"; "8.8.8.8"; "8.8.4.4"; "9.9.9.9";
    "149.112.112.112"; "208.67.222.222"; "208.67.220.220" ].

(** The configuration after [init] and [flag.Parse] without arguments,
    with the pool of [main]. *)
Definition defaultConfig : Config :=
  mkConfig 20 (time.mul 5 time.Second) false defaultResolvers 2.

(** ** Errors and DNS messages *)

(** A Go [error]: one reported by the network layer, or one that
    [fmt.Errorf] built around another with the [%w] verb. *)
Inductive error : Type :=
| NetError (msg : string)
| Errorf_w (prefix : string) (inner : error).

(** The [Error()] text, what [%v] prints. *)
Fixpoint Error (e : error) : string :=
  match e with
  | NetError msg => msg
  | Errorf_w prefix inner => prefix ++ Error inner
  end.

Module dns.

(** A resource record by its Go type: [*dns.CNAME], [*dns.A], [*dns.SOA],
    or any other record type, kept by its type code. *)
Inductive RR : Type :=
| CNAME (Target : string)
| A (addr : string)
| SOA (Ns Mbox : string)
| Other (rrtype : N) (rdata : string).

(** The sections of [dns.Msg] the program reads. *)
Record Msg : Type := mkMsg {
  Answer : list RR;
  Ns : list RR
}.

End dns.

(** ** The environment and the monad of the pipeline *)

(** What one call leaves outside of the program. *)
Inductive Event : Type :=
| EvExchange (qname address : string)      (* a call of [ExchangeContext] *)
| EvSleep (d : time.Duration)              (* [time.Sleep d] *)
| EvLookupHost (host : string)             (* [resolver.LookupHost] *)
| EvResult (line : string)                 (* a send on [results] *)
| EvStderr (line : string).                (* a write to [os.Stderr] *)

(** The oracles.  Each is asked with the clock value of the call. *)
Record Env : Type := mkEnv {
  exchange : nat -> string -> string -> error + dns.Msg;
  lookupHost : nat -> string -> bool;
  mapChoices : nat -> list nat
}.

(** A computation from a clock value: the events produced, and the result
    with the new clock, or [None] when the computation does not return. *)
Definition M (X : Type) : Type := nat -> list Event * option (X * nat).

Definition ret {X : Type} (x : X) : M X := fun t => ([], Some (x, t)).

Definition bind {X Y : Type} (m : M X) (f : X -> M Y) : M Y :=
  fun t =>
    match m t with
    | (evs, None) => (evs, None)
    | (evs, Some (x, t')) =>
        let '(evs', r) := f x t' in ((evs ++ evs')%list, r)
    end.

Definition emit (e : Event) : M unit := fun t => ([e], Some (tt, t)).

(** One oracle call: reads the clock and advances it. *)
Definition ask {X : Type} (oracle : nat -> X) : M X :=
  fun t => ([], Some (oracle t, S t)).

Definition diverge {X : Type} : M X := fun _ => ([], None).

Declare Scope go_scope.
Delimit Scope go_scope with go.
Notation "x <- m ;; k" := (bind m (fun x => k))
  (at level 61, m at next level, right associativity) : go_scope.
Notation "' pat <- m ;; k" := (bind m (fun x => match x with pat => k end))
  (at level 61, pat pattern, m at next level, right associativity) : go_scope.
Notation "m ;;; k" := (bind m (fun _ => k))
  (at level 61, right associativity) : go_scope.
Local Open Scope go_scope.

Definition events {X : Type} (m : M X) (t : nat) : list Event := fst (m t).
Definition result {X : Type} (m : M X) (t : nat) : option X :=
  option_map fst (snd (m t)).

(** ** The answer of one lookup *)

(** First loop of [getCNAME]: the first [*dns.CNAME] of the section. *)
Fixpoint firstCNAME (rrs : list dns.RR) : option string :=
  match rrs with
  | [] => None
  | dns.CNAME target :: _ => Some target
  | _ :: rest => firstCNAME rest
  end.

(** Second loop: does the section hold a [*dns.A]? *)
Fixpoint hasA (rrs : list dns.RR) : bool :=
  match rrs with
  | [] => false
  | dns.A _ :: _ => true
  | _ :: rest => hasA rest
  end.

(** Third loop: does the section hold a [*dns.SOA]? *)
Fixpoint hasSOA (rrs : list dns.RR) : bool :=
  match rrs with
  | [] => false
  | dns.SOA _ _ :: _ => true
  | _ :: rest => hasSOA rest
  end.

(** [getCNAME] from the point where [ExchangeContext] returned a message. *)
Definition interpret (r : dns.Msg) : string * option error :=
  match firstCNAME (dns.Answer r) with
  | Some target => (strings.TrimSuffix target ".", None)
  | None =>
      if hasA (dns.Answer r) then ("", None)
      else if (0 <? List.length (dns.Ns r))%nat && hasSOA (dns.Ns r) then ("", None)
      else ("", None)
  end.

(** The name [getCNAME] asks for: [domain] made absolute. *)
Definition fqdn (domain : string) : string :=
  if negb (strings.HasSuffix domain ".") then domain ++ "." else domain.

(** What [getCNAME] returns for the outcome of its exchange. *)
Definition answerOf (outcome : error + dns.Msg) : string * option error :=
  match outcome with
  | inl err => ("", Some (Errorf_w "DNS query failed: " err))
  | inr r => interpret r
  end.

(** Every entry of a table carries a service name. *)
Definition allServicesNamed (table : list (string * string)) : bool :=
  forallb (fun entry => negb (String.eqb (snd entry) "")) table.

(** ** The findings

    The three lines [processDomain] sends on [results], by the data they are
    formatted from. *)
Inductive Finding : Type :=
| OK (domain cname : string)
| Dangling (domain cname : string)
| Takeover (domain cname service : string).

(** The [fmt.Sprintf] of each finding. *)
Definition render (f : Finding) : string :=
  match f with
  | OK domain cname => "[OK] " ++ domain ++ " -> " ++ cname
  | Dangling domain cname =>
      "[DANGLING] " ++ domain ++ " -> " ++ cname ++ " (does not resolve)"
  | Takeover domain cname service =>
      "[TAKEOVER] " ++ domain ++ " -> " ++ cname ++ " (vulnerable: " ++ service ++ ")"
  end.

Definition findingDomain (f : Finding) : string :=
  match f with
  | OK domain _ | Dangling domain _ | Takeover domain _ _ => domain
  end.

Definition findingCNAME (f : Finding) : string :=
  match f with
  | OK _ cname | Dangling _ cname | Takeover _ cname _ => cname
  end.

Definition newline : string := String (ascii_of_nat 10) EmptyString.

(** The lines sent on [results] among the events, in order. *)
Fixpoint resultLines (evs : list Event) : list string :=
  match evs with
  | [] => []
  | EvResult line :: rest => line :: resultLines rest
  | _ :: rest => resultLines rest
  end.

(** The lines written to [os.Stderr] among the events, in order. *)
Fixpoint stderrLines (evs : list Event) : list string :=
  match evs with
  | [] => []
  | EvStderr line :: rest => line :: stderrLines rest
  | _ :: rest => stderrLines rest
  end.

(** The number of exchanges, the calls of [ExchangeContext], among the
    events. *)
Fixpoint attempts (evs : list Event) : nat :=
  match evs with
  | [] => O
  | EvExchange _ _ :: rest => S (attempts rest)
  | _ :: rest => attempts rest
  end.

(** The delays asked of [time.Sleep] among the events, in order. *)
Fixpoint delays (evs : list Event) : list time.Duration :=
  match evs with
  | [] => []
  | EvSleep d :: rest => d :: delays rest
  | _ :: rest => delays rest
  end.

(** ** The pipeline of one domain *)

Section Pipeline.

Variable config : Config.
Variable env : Env.

(** [getCNAME]: one query for the CNAME of [domain] to [server], port 53. *)
Definition getCNAME (domain server : string) : M (string * option error) :=
  let domain := fqdn domain in
  emit (EvExchange domain (server ++ ":53")) ;;;
  r <- ask (fun t => exchange env t domain (server ++ ":53")) ;;
  match r with
  | inl err => ret ("", Some (Errorf_w "DNS query failed: " err))
  | inr r => ret (interpret r)
  end.

(** The loop [for i := 0; i <= config.retries; i++] of [getCNAMEWithRetry],
    from the test of its condition with counter [i]. *)
Fixpoint retryLoop (fuel : nat) (domain server : string) (i : Z)
    (lastErr : option error) : M (string * option error) :=
  match fuel with
  | O => diverge
  | S fuel' =>
      if i <=? retries config then
        '(cname, err) <- getCNAME domain server ;;
        match err with
        | None => ret (cname, None)
        | Some e =>
            (if i <? retries config
             then emit (EvSleep (time.mul (time.mul time.Millisecond 100)
                                          (int_add i 1)))
             else ret tt) ;;;
            retryLoop fuel' domain server (int_add i 1) (Some e)
        end
      else ret ("", lastErr)
  end.

(** The tests of the loop condition a run needs at most when the counter
    does not wrap: one per attempt and the one that leaves the loop. *)
Definition retryFuel : nat := S (Z.to_nat (retries config + 1)).

(** [getCNAMEWithRetry] *)
Definition getCNAMEWithRetry (domain server : string) : M (string * option error) :=
  retryLoop retryFuel domain server 0 None.

(** [resolves] *)
Definition resolves (domain : string) : M bool :=
  let domain := strings.TrimSuffix domain "." in
  emit (EvLookupHost domain) ;;;
  ask (fun t => lookupHost env t domain).

(** [processDomain] *)
Definition processDomain (domain server : string) : M unit :=
  '(cname, err) <- getCNAMEWithRetry domain server ;;
  match err with
  | Some e =>
      if verbose config
      then emit (EvStderr ("Error querying " ++ domain ++ ": " ++ Error e ++ newline))
      else ret tt
  | None =>
      if String.eqb cname ""
      then
        if verbose config
        then emit (EvStderr ("No CNAME for " ++ domain ++ newline))
        else ret tt
      else
        ok <- resolves cname ;;
        if negb ok then
          emit (EvResult (render (Dangling domain cname))) ;;;
          choices <- ask (mapChoices env) ;;
          let service := checkVulnerableService choices cname in
          if negb (String.eqb service "")
          then emit (EvResult (render (Takeover domain cname service)))
          else ret tt
        else if verbose config
        then emit (EvResult (render (OK domain cname)))
        else ret tt
  end.

End Pipeline.

(** ** The Job Dispatcher (the reading loop of [main]) *)

Record job : Type := mkJob {
  domain : string;
  server : string
}.

(** [rand.Intn n] on the raw value the source yields; it panics for
    [n <= 0]. *)
Definition Intn (raw n : nat) : option nat :=
  if (n =? 0)%nat then None else Some (raw mod n)%nat.

(** The loop over [scanner.Scan()]: [lines] are the texts the scanner
    yields, [rnd] the random source, [k] the number of draws made so far,
    [caseTable] the case tables of package [unicode] above ASCII.  The jobs
    the loop sends on [jobs], in order; [None] is a panic. *)
Fixpoint dispatch (caseTable : Z -> Z) (config : Config) (rnd : nat -> nat) (k : nat)
    (lines : list string) : option (list job) :=
  match lines with
  | [] => Some []
  | line :: rest =>
      let domain := strings.ToLowerUTF8 caseTable (strings.TrimSpace line) in
      if String.eqb domain "" then dispatch caseTable config rnd k rest
      else
        match Intn (rnd k) (List.length (resolvers config)) with
        | None => None
        | Some idx =>
            match nth_error (resolvers config) idx with
            | None => None
            | Some server =>
                option_map (cons (mkJob domain server))
                           (dispatch caseTable config rnd (S k) rest)
            end
        end
  end.

(** [main] installs its resolver pool over the parsed flags, then reads. *)
Definition mainConfig (flags : Config) : Config :=
  mkConfig (concurrency flags) (timeout flags) (verbose flags)
           defaultResolvers (retries flags).

(** [make(chan T, size)]: a negative size is a run-time panic.  (The
    limits of the allocator are outside of the model, as for any
    allocation.) *)
Definition makeChan (size : Z) : option Z :=
  if size <? 0 then None else Some size.

(** How the reading of [main] ends: a panic; a send on [jobs] that never
    completes, for the job it carries; or the end of the input, with the
    jobs sent. *)
Inductive Dispatch : Type :=
| Panics
| Blocks (j : job)
| Sends (jobs : list job).

(** [main] up to [close(jobs)]: it makes the two channels, of capacity
    [concurrency*2] and [concurrency], starts [concurrency] workers and
    sends a job for each line that is not blank.  With no worker, the first
    send on the unbuffered channel never completes; with workers, a send
    completes once a worker takes a job from the channel, and the workers
    are taken to come back from each job (as [processDomain] does whenever
    [retries] is below the largest [int]). *)
Definition mainJobs (caseTable : Z -> Z) (flags : Config) (rnd : nat -> nat)
    (lines : list string) : Dispatch :=
  let config := mainConfig flags in
  match makeChan (wrap64 (concurrency config * 2)), makeChan (concurrency config) with
  | Some _, Some _ =>
      match dispatch caseTable config rnd 0 lines with
      | None => Panics
      | Some [] => Sends []
      | Some (j :: rest) =>
          if concurrency config <=? 0 then Blocks j else Sends (j :: rest)
      end
  | _, _ => Panics
  end.

(** ** The worker

    [worker]: the loop [for j := range jobs], over the jobs this worker
    receives from the channel, in the order it receives them; each is
    processed to the end before the next is taken. *)
Fixpoint worker (config : Config) (env : Env) (jobs : list job) : M unit :=
  match jobs with
  | [] => ret tt
  | j :: rest =>
      processDomain config env (domain j) (server j) ;;;
      worker config env rest
  end.

(** The number of host lookups among the events. *)
Fixpoint lookups (evs : list Event) : nat :=
  match evs with
  | [] => O
  | EvLookupHost _ :: rest => S (lookups rest)
  | _ :: rest => lookups rest
  end.

(** The time asked of [time.Sleep] in all, in nanoseconds. *)
Definition totalDelay (evs : list Event) : Z := fold_right Z.add 0 (delays evs).

(** ** Sample runs

    Environments and configurations of the scenarios of the specification:
    a resolver that times out twice and then answers with a CNAME chain to a
    bucket that no longer resolves; one that never answers; one whose CNAME
    target still resolves. *)

(** U+00A0, the no-break space, in UTF-8. *)
Definition nbsp : string :=
  String (ascii_of_nat 194) (String (ascii_of_nat 160) EmptyString).

Definition sampleReply : dns.Msg :=
  dns.mkMsg [dns.Other 46 "sig"; dns.CNAME "bucket.s3.amazonaws.com.";
             dns.CNAME "second.example.net."] [].

Definition sampleEnv : Env :=
  mkEnv (fun t _ _ => if (t <? 2)%nat then inl (NetError "i/o timeout")
                      else inr sampleReply)
        (fun _ _ => false)
        (fun _ => []).

Definition failingEnv : Env :=
  mkEnv (fun _ _ _ => inl (NetError "i/o timeout")) (fun _ _ => false) (fun _ => []).

Definition resolvingEnv : Env :=
  mkEnv (fun _ _ _ => inr (dns.mkMsg [dns.CNAME "old-app.herokuapp.com."] []))
        (fun _ _ => true)
        (fun _ => []).

Definition verboseConfig : Config :=
  mkConfig 20 (time.mul 5 time.Second) true defaultResolvers 2.

(** [-r 9223372036854775807]: the largest [int]. *)
Definition maxRetriesConfig : Config :=
  mkConfig 20 (time.mul 5 time.Second) false defaultResolvers max_int.

(** A resolver that answers every query with a CNAME to the root name. *)
Definition rootEnv : Env :=
  mkEnv (fun _ _ _ => inr (dns.mkMsg [dns.CNAME "."] []))
        (fun _ _ => false)
        (fun _ => []).

(** [-r 92233720369]: the first value whose last delay does not fit a
    [Duration]. *)
Definition wrapRetriesConfig : Config :=
  mkConfig 20 (time.mul 5 time.Second) false defaultResolvers 92233720369.

Definition sampleJobs : list job :=
  [ mkJob "broken.example.com" "8.8.8.8";
    mkJob "abandoned.example.com" "1.1.1.1" ].

(** * Properties *)

(** ** Strings *)

Section StringFacts.

Local Open Scope nat_scope.

Lemma append_empty_r (s : string) : s ++ "" = s.
Proof. induction s as [|c s IH]; simpl; [reflexivity | now rewrite IH]. Qed.

Lemma append_assoc (a b c : string) : (a ++ b) ++ c = a ++ b ++ c.
Proof. induction a as [|x a IH]; simpl; [reflexivity | now rewrite IH]. Qed.

Lemma length_append (a b : string) :
  String.length (a ++ b) = String.length a + String.length b.
Proof. induction a as [|x a IH]; simpl; [reflexivity | now rewrite IH]. Qed.

Lemma substring_all (s : string) : substring 0 (String.length s) s = s.
Proof. induction s as [|c s IH]; simpl; [reflexivity | now rewrite IH]. Qed.

Lemma substring_head (a b : string) :
  substring 0 (String.length a) (a ++ b) = a.
Proof.
  induction a as [|x a IH]; simpl.
  - now destruct b.
  - now rewrite IH.
Qed.

Lemma substring_tail (a b : string) :
  substring (String.length a) (String.length b) (a ++ b) = b.
Proof. induction a as [|x a IH]; simpl; [apply substring_all | exact IH]. Qed.

(** A string is its first [k] bytes followed by the others. *)
Lemma substring_split (s : string) (k : nat) :
  k <= String.length s ->
  s = substring 0 k s ++ substring k (String.length s - k) s.
Proof.
  revert k; induction s as [|c s IH]; intros k Hk; simpl in *.
  - now destruct k.
  - destruct k as [|k]; simpl.
    + now rewrite substring_all.
    + rewrite <- IH by lia. reflexivity.
Qed.

(** [HasPrefix s p] holds exactly when [s] starts with [p]. *)
Lemma HasPrefix_spec (s p : string) :
  strings.HasPrefix s p = true <-> exists rest, s = p ++ rest.
Proof.
  revert s; induction p as [|b p IH]; intros s; simpl.
  - split; [intros _; now exists s | reflexivity].
  - destruct s as [|a s].
    + split; [discriminate | intros [rest H]; discriminate].
    + rewrite andb_true_iff, Ascii.eqb_eq, IH. split.
      * intros [-> [rest ->]]. now exists rest.
      * intros [rest H]. injection H as -> ->. split; [reflexivity | now exists rest].
Qed.

(** [Contains s sub] holds exactly when [sub] is a substring of [s]. *)
Lemma Contains_spec (s sub : string) :
  strings.Contains s sub = true <-> exists before rest, s = before ++ sub ++ rest.
Proof.
  induction s as [|c s IH]; simpl; rewrite orb_true_iff, HasPrefix_spec.
  - split.
    + intros [[rest H] | H]; [now exists "", rest | discriminate].
    + intros [before [rest H]]. left. destruct before; [now exists rest | discriminate].
  - rewrite IH. split.
    + intros [[rest H] | [before [rest H]]].
      * now exists "", rest.
      * exists (String c before), rest. simpl. now rewrite H.
    + intros [[|x before] [rest H]]; simpl in H.
      * left. now exists rest.
      * right. injection H as _ H. now exists before, rest.
Qed.

(** [HasSuffix s suffix] holds exactly when [s] ends with [suffix]. *)
Lemma HasSuffix_spec (s suffix : string) :
  strings.HasSuffix s suffix = true <-> exists front, s = front ++ suffix.
Proof.
  unfold strings.HasSuffix. rewrite andb_true_iff, Nat.leb_le, String.eqb_eq. split.
  - intros [Hlen Heq].
    exists (substring 0 (String.length s - String.length suffix) s).
    rewrite (substring_split s (String.length s - String.length suffix)) at 1 by lia.
    replace (String.length s - (String.length s - String.length suffix))
      with (String.length suffix) by lia.
    now rewrite Heq.
  - intros [front ->]. rewrite length_append. split; [lia|].
    replace (String.length front + String.length suffix - String.length suffix)
      with (String.length front) by lia.
    apply substring_tail.
Qed.

(** [TrimSuffix] removes the suffix of a string that ends with it... *)
Lemma TrimSuffix_append (front suffix : string) :
  strings.TrimSuffix (front ++ suffix) suffix = front.
Proof.
  unfold strings.TrimSuffix.
  assert (H : strings.HasSuffix (front ++ suffix) suffix = true)
    by (apply HasSuffix_spec; now exists front).
  rewrite H, length_append.
  replace (String.length front + String.length suffix - String.length suffix)
    with (String.length front) by lia.
  apply substring_head.
Qed.

(** ... and leaves any other string as it is. *)
Lemma TrimSuffix_other (s suffix : string) :
  (forall front, s <> front ++ suffix) -> strings.TrimSuffix s suffix = s.
Proof.
  intros H. unfold strings.TrimSuffix.
  destruct (strings.HasSuffix s suffix) eqn:E; [|reflexivity].
  apply HasSuffix_spec in E. destruct E as [front E]. now elim (H front).
Qed.

Lemma ToLower_length (s : string) :
  String.length (strings.ToLower s) = String.length s.
Proof. induction s as [|c s IH]; simpl; [reflexivity | now rewrite IH]. Qed.

Lemma lowerByte_idempotent (c : ascii) :
  strings.lowerByte (strings.lowerByte c) = strings.lowerByte c.
Proof.
  destruct c as [[] [] [] [] [] [] [] []]; reflexivity.
Qed.

Lemma ToLower_idempotent (s : string) :
  strings.ToLower (strings.ToLower s) = strings.ToLower s.
Proof.
  induction s as [|c s IH]; simpl; [reflexivity|].
  now rewrite lowerByte_idempotent, IH.
Qed.

End StringFacts.

(** ** The order of a [range] loop *)

Section RangeOrder.

Context {A : Type}.

Lemma extract_perm (n : nat) (l : list A) (x : A) (r : list A) :
  extract n l = Some (x, r) -> Permutation l (x :: r).
Proof.
  revert n x r; induction l as [|y l IH]; intros n x r H; simpl in H.
  - discriminate.
  - destruct n as [|n].
    + injection H as -> ->. apply Permutation_refl.
    + destruct (extract n l) as [[z r']|] eqn:E; [|discriminate].
      injection H as -> <-.
      apply perm_trans with (y :: x :: r'); [|apply perm_swap].
      apply perm_skip. now apply IH with n.
Qed.

Lemma extract_some (n : nat) (l : list A) :
  (n < List.length l)%nat -> exists x r, extract n l = Some (x, r).
Proof.
  revert n; induction l as [|y l IH]; intros n H; simpl in *; [lia|].
  destruct n as [|n]; [now exists y, l|].
  destruct (IH n) as [x [r E]]; [lia|]. rewrite E. now exists x, (y :: r).
Qed.

Lemma extract_In (x : A) (l : list A) :
  In x l -> exists n r, (n < List.length l)%nat /\ extract n l = Some (x, r).
Proof.
  induction l as [|y l IH]; intros H; simpl in *; [contradiction|].
  destruct H as [-> | H].
  - exists O, l. split; [lia | reflexivity].
  - destruct (IH H) as [n [r [Hn E]]].
    exists (S n), (y :: r). split; [lia|]. simpl. now rewrite E.
Qed.

(** Whatever the choices, the loop visits every entry exactly once. *)
Lemma rangeOrder_perm (choices : list nat) (m : list A) :
  Permutation (rangeOrder choices m) m.
Proof.
  revert m; induction choices as [|c choices IH]; intros m; simpl.
  - apply Permutation_refl.
  - destruct m as [|y m].
    + simpl. apply Permutation_refl.
    + destruct (extract_some (c mod List.length (y :: m)) (y :: m)) as [x [r E]].
      { apply Nat.mod_upper_bound. simpl. lia. }
      rewrite E. apply Permutation_sym.
      apply perm_trans with (x :: r); [now apply extract_perm with (1 := E)|].
      apply perm_skip, Permutation_sym, IH.
Qed.

(** Every order of the entries is the order of some choices: the model
    leaves the iteration order as free as the language does. *)
Lemma rangeOrder_complete (order m : list A) :
  Permutation order m -> exists choices, rangeOrder choices m = order.
Proof.
  revert m; induction order as [|x order IH]; intros m H.
  - apply Permutation_nil in H. subst m. now exists [].
  - assert (Hin : In x m) by (apply Permutation_in with (1 := H); now left).
    destruct (extract_In x m Hin) as [n [r [Hn E]]].
    assert (Hr : Permutation order r).
    { apply Permutation_cons_inv with x.
      apply perm_trans with m; [exact H | now apply extract_perm with n]. }
    destruct (IH r Hr) as [choices Hc].
    exists (n :: choices). simpl.
    rewrite Nat.mod_small by exact Hn. now rewrite E, Hc.
Qed.

End RangeOrder.

(** ** The classifier *)

Lemma vulnerablePatterns_named (pattern service : string) :
  In (pattern, service) vulnerablePatterns -> service <> "".
Proof.
  intros Hin.
  assert (H : allServicesNamed vulnerablePatterns = true) by (vm_compute; reflexivity).
  unfold allServicesNamed in H. rewrite forallb_forall in H.
  specialize (H _ Hin). simpl in H.
  intros ->. discriminate.
Qed.

(** The loop returns the empty name exactly when it visits no pattern that
    the name contains, provided no entry carries the empty name. *)
Lemma firstMatch_empty (cname : string) (visited : list (string * string)) :
  (forall pattern service, In (pattern, service) visited -> service <> "") ->
  firstMatch cname visited = "" <->
  (forall pattern service, In (pattern, service) visited ->
     strings.Contains cname pattern = false).
Proof.
  induction visited as [|[p s] rest IH]; intros Hnamed; simpl.
  - split; [intros _ ? ? [] | reflexivity].
  - destruct (strings.Contains cname p) eqn:E.
    + split.
      * intros ->. now elim (Hnamed p ""); [left|].
      * intros H. rewrite (H p s) in E; [discriminate | now left].
    + rewrite IH by (intros ? ? ?; eapply Hnamed; right; eassumption).
      split.
      * intros H pattern service [Heq | Hin]; [now injection Heq as <- <- | eauto].
      * intros H pattern service Hin. apply (H pattern service). now right.
Qed.

(** A non-empty answer is the service of the first visited pattern that the
    name contains. *)
Lemma firstMatch_first (cname : string) (visited : list (string * string)) :
  firstMatch cname visited <> "" ->
  exists skipped pattern later,
    visited = (skipped ++ (pattern, firstMatch cname visited) :: later)%list /\
    strings.Contains cname pattern = true /\
    (forall p s, In (p, s) skipped -> strings.Contains cname p = false).
Proof.
  induction visited as [|[p s] rest IH]; simpl; intros H.
  - now elim H.
  - destruct (strings.Contains cname p) eqn:E.
    + exists [], p, rest. repeat split; [exact E | intros ? ? []].
    + destruct (IH H) as [skipped [pattern [later [Heq [Hc Hs]]]]].
      exists ((p, s) :: skipped), pattern, later. repeat split.
      * simpl. now rewrite <- Heq.
      * exact Hc.
      * intros p' s' [Hin | Hin]; [now injection Hin as <- <- | eauto].
Qed.

(** When every contained pattern carries the same service, the answer is
    that service in any order. *)
Lemma firstMatch_agree (cname service : string) (visited : list (string * string)) :
  (forall p s, In (p, s) visited -> strings.Contains cname p = true -> s = service) ->
  (exists p s, In (p, s) visited /\ strings.Contains cname p = true) ->
  firstMatch cname visited = service.
Proof.
  induction visited as [|[p s] rest IH]; simpl; intros Hsame [p' [s' [Hin Hc]]].
  - contradiction.
  - destruct (strings.Contains cname p) eqn:E.
    + apply (Hsame p s); [now left | exact E].
    + apply IH; [intros; eapply Hsame; [right|]; eassumption|].
      destruct Hin as [Heq | Hin]; [injection Heq as -> ->; congruence|].
      now exists p', s'.
Qed.

(** The classifier answers the empty name exactly when the lowercased name
    contains no pattern of the table, in whatever order it is walked. *)
Lemma checkVulnerableService_empty (choices : list nat) (target : string) :
  checkVulnerableService choices target = "" <->
  (forall pattern service, In (pattern, service) vulnerablePatterns ->
     strings.Contains (strings.ToLower target) pattern = false).
Proof.
  unfold checkVulnerableService.
  pose proof (rangeOrder_perm choices vulnerablePatterns) as Hperm.
  rewrite firstMatch_empty.
  - split; intros H pattern service Hin; apply (H pattern service).
    + apply Permutation_in with (2 := Hin), Permutation_sym, Hperm.
    + apply Permutation_in with (2 := Hin), Hperm.
  - intros pattern service Hin.
    apply (vulnerablePatterns_named pattern), Permutation_in with (2 := Hin), Hperm.
Qed.

(** Any pattern the lowercased name contains is the first the loop visits in
    some order, and then its service is the answer. *)
Lemma checkVulnerableService_can_answer (target pattern service : string) :
  In (pattern, service) vulnerablePatterns ->
  strings.Contains (strings.ToLower target) pattern = true ->
  exists choices, checkVulnerableService choices target = service.
Proof.
  intros Hin Hc.
  destruct (extract_In (pattern, service) vulnerablePatterns Hin) as [n [r [Hn E]]].
  exists [n]. unfold checkVulnerableService.
  cbn [rangeOrder]. rewrite Nat.mod_small by exact Hn. rewrite E.
  cbn [rangeOrder firstMatch]. now rewrite Hc.
Qed.

(** C1, as stated, fails: the classifier walks a Go map, whose iteration
    order is not fixed.  The target [shop.github.io.herokuapp.com] contains
    the patterns [.herokuapp.com] and [.github.io]; a run that visits the
    entries in the order of the table literal answers [Heroku], a run that
    visits [.github.io] first answers [GitHub Pages]. *)
Lemma checkVulnerableService_order_dependent :
  checkVulnerableService [] "shop.github.io.herokuapp.com" = "Heroku" /\
  checkVulnerableService [9%nat] "shop.github.io.herokuapp.com" = "GitHub Pages" /\
  checkVulnerableService [] "shop.github.io.herokuapp.com"
    <> checkVulnerableService [9%nat] "shop.github.io.herokuapp.com".
Proof.
  assert (H1 : checkVulnerableService [] "shop.github.io.herokuapp.com" = "Heroku")
    by (vm_compute; reflexivity).
  assert (H2 : checkVulnerableService [9%nat] "shop.github.io.herokuapp.com"
               = "GitHub Pages") by (vm_compute; reflexivity).
  split; [exact H1 | split; [exact H2 |]].
  rewrite H1, H2. discriminate.
Qed.

(** C1 (amended): the classifier lowercases the target and tests it against
    the patterns of the table in the order in which this run's loop visits
    the map, an order that is some permutation of the table and is not fixed
    between runs.  It answers the empty name exactly when the lowercased
    target contains no pattern of the table; a non-empty answer is the
    service of the first visited pattern that the lowercased target
    contains.  Two runs on one target give the same answer whenever all the
    patterns the lowercased target contains carry one service name; when it
    contains patterns of different services, each of these services is the
    answer in some order, so the answer depends on the order of the run. *)
Theorem checkVulnerableService_first_in_range_order
    (choices : list nat) (target : string) :
  let cname := strings.ToLower target in
  let visited := rangeOrder choices vulnerablePatterns in
  let answer := checkVulnerableService choices target in
  Permutation visited vulnerablePatterns /\
  (answer = "" <->
     forall pattern service, In (pattern, service) vulnerablePatterns ->
       strings.Contains cname pattern = false) /\
  (answer <> "" ->
     exists skipped pattern later,
       visited = (skipped ++ (pattern, answer) :: later)%list /\
       strings.Contains cname pattern = true /\
       forall p s, In (p, s) skipped -> strings.Contains cname p = false) /\
  (forall service,
     (forall pattern service', In (pattern, service') vulnerablePatterns ->
        strings.Contains cname pattern = true -> service' = service) ->
     forall choices', checkVulnerableService choices' target = answer) /\
  (forall pattern1 service1 pattern2 service2,
     In (pattern1, service1) vulnerablePatterns ->
     In (pattern2, service2) vulnerablePatterns ->
     strings.Contains cname pattern1 = true ->
     strings.Contains cname pattern2 = true ->
     service1 <> service2 ->
     exists choices1 choices2,
       checkVulnerableService choices1 target = service1 /\
       checkVulnerableService choices2 target = service2 /\
       checkVulnerableService choices1 target
         <> checkVulnerableService choices2 target).
Proof.
  intros cname visited answer.
  assert (Hperm : forall c, Permutation (rangeOrder c vulnerablePatterns) vulnerablePatterns)
    by (intros c; apply rangeOrder_perm).
  assert (Hempty : forall c,
    checkVulnerableService c target = "" <->
    forall pattern service, In (pattern, service) vulnerablePatterns ->
      strings.Contains cname pattern = false)
    by (intros c; apply checkVulnerableService_empty).
  split; [apply Hperm|]. split; [apply Hempty|]. split; [|split].
  - apply firstMatch_first.
  - intros service Hsame choices'.
    destruct (String.eqb answer "") eqn:E.
    + apply String.eqb_eq in E. rewrite E.
      apply Hempty. now apply (Hempty choices).
    + apply String.eqb_neq in E.
      assert (Hex : exists p s, In (p, s) vulnerablePatterns /\
                                strings.Contains cname p = true).
      { destruct (firstMatch_first cname visited E)
          as [skipped [pattern [later [Heq [Hc _]]]]].
        exists pattern, answer. split; [|exact Hc].
        apply Permutation_in with (1 := Hperm choices). fold visited.
        rewrite Heq. apply in_or_app. right. now left. }
      assert (Hall : forall c, checkVulnerableService c target = service).
      { intros c. unfold checkVulnerableService. fold cname.
        apply firstMatch_agree.
        - intros p s Hin Hc. apply (Hsame p s); [|exact Hc].
          apply Permutation_in with (2 := Hin), Hperm.
        - destruct Hex as [p [s [Hin Hc]]]. exists p, s. split; [|exact Hc].
          apply Permutation_in with (2 := Hin), Permutation_sym, Hperm. }
      unfold answer. now rewrite !Hall.
  - intros pattern1 service1 pattern2 service2 Hin1 Hin2 Hc1 Hc2 Hdiff.
    destruct (checkVulnerableService_can_answer target pattern1 service1 Hin1 Hc1)
      as [choices1 H1].
    destruct (checkVulnerableService_can_answer target pattern2 service2 Hin2 Hc2)
      as [choices2 H2].
    exists choices1, choices2. rewrite H1, H2. repeat split. exact Hdiff.
Qed.

(** [bucket.s3.amazonaws.com] contains one pattern only, so every run answers
    the same. *)
Lemma checkVulnerableService_first_in_range_order_witness :
  checkVulnerableService [9%nat; 4%nat] "Bucket.S3.amazonaws.com"
    = checkVulnerableService [] "Bucket.S3.amazonaws.com".
Proof.
  destruct (checkVulnerableService_first_in_range_order [] "Bucket.S3.amazonaws.com")
    as [_ [_ [_ [Hsame _]]]].
  apply (Hsame "AWS S3").
  intros pattern service Hin.
  assert (Hall : forallb (fun entry : string * string =>
            implb (strings.Contains (strings.ToLower "Bucket.S3.amazonaws.com") (fst entry))
                  (String.eqb (snd entry) "AWS S3")) vulnerablePatterns = true)
    by (vm_compute; reflexivity).
  rewrite forallb_forall in Hall. specialize (Hall _ Hin). cbn [fst snd] in Hall.
  intros Hc. rewrite Hc in Hall. now apply String.eqb_eq.
Defined.

(** ** One lookup *)

(** One call of [getCNAME] sends one query, asks the network once and
    returns. *)
Lemma getCNAME_run (env : Env) (domain server : string) (t : nat) :
  getCNAME env domain server t =
  ([EvExchange (fqdn domain) (server ++ ":53")],
   Some (answerOf (exchange env t (fqdn domain) (server ++ ":53")), S t)).
Proof.
  unfold getCNAME, bind, emit, ask, answerOf. simpl.
  destruct (exchange env t (fqdn domain) (server ++ ":53")); reflexivity.
Qed.

Lemma firstCNAME_In (rrs : list dns.RR) (target : string) :
  firstCNAME rrs = Some target -> In (dns.CNAME target) rrs.
Proof.
  induction rrs as [|rr rrs IH]; simpl; [discriminate|].
  destruct rr; intros H; try (right; now apply IH).
  injection H as ->. now left.
Qed.

Lemma firstCNAME_None (rrs : list dns.RR) :
  firstCNAME rrs = None <-> forall target, ~ In (dns.CNAME target) rrs.
Proof.
  induction rrs as [|rr rrs IH]; simpl.
  - split; [intros _ ? [] | reflexivity].
  - destruct rr; try (rewrite IH; split;
      [intros H target [Heq | Hin]; [discriminate | now apply (H target)]
      |intros H target Hin; apply (H target); now right]).
    split; [discriminate | intros H; elim (H Target); now left].
Qed.

(** The first CNAME of a section is the one no CNAME precedes. *)
Lemma firstCNAME_app (before rest : list dns.RR) (target : string) :
  (forall other, ~ In (dns.CNAME other) before) ->
  firstCNAME (before ++ dns.CNAME target :: rest) = Some target.
Proof.
  induction before as [|rr before IH]; simpl; intros H; [reflexivity|].
  destruct rr; try (apply IH; intros other Hin; apply (H other); now right).
  elim (H Target). now left.
Qed.

Lemma interpret_no_error (r : dns.Msg) : snd (interpret r) = None.
Proof.
  unfold interpret.
  destruct (firstCNAME (dns.Answer r)); [reflexivity|].
  destruct (hasA (dns.Answer r)); [reflexivity|].
  destruct ((0 <? List.length (dns.Ns r))%nat && hasSOA (dns.Ns r)); reflexivity.
Qed.

Lemma interpret_no_CNAME (r : dns.Msg) :
  firstCNAME (dns.Answer r) = None -> interpret r = ("", None).
Proof.
  unfold interpret. intros ->.
  destruct (hasA (dns.Answer r)); [reflexivity|].
  destruct ((0 <? List.length (dns.Ns r))%nat && hasSOA (dns.Ns r)); reflexivity.
Qed.

(** C3: a response that was received is never a lookup error, and it is read
    in this order.  If the answer section holds a CNAME record, the lookup
    returns the target of such a record without its trailing root dot: the
    name before the dot when the target ends in one, the target itself
    otherwise.  Else if the answer section holds an A record it returns the
    empty string; else if the authority section holds an SOA record it
    returns the empty string; else it returns the empty string. *)
Theorem getCNAME_answer_precedence
    (env : Env) (domain server : string) (t : nat) (r : dns.Msg) :
  exchange env t (fqdn domain) (server ++ ":53") = inr r ->
  exists cname,
    getCNAME env domain server t =
      ([EvExchange (fqdn domain) (server ++ ":53")], Some ((cname, None), S t)) /\
    ((exists target, In (dns.CNAME target) (dns.Answer r)) ->
       exists target,
         In (dns.CNAME target) (dns.Answer r) /\
         cname = strings.TrimSuffix target "." /\
         (forall name, target = name ++ "." -> cname = name) /\
         ((forall name, target <> name ++ ".") -> cname = target)) /\
    ((forall target, ~ In (dns.CNAME target) (dns.Answer r)) ->
       ((exists addr, In (dns.A addr) (dns.Answer r)) -> cname = "") /\
       ((forall addr, ~ In (dns.A addr) (dns.Answer r)) ->
          ((exists ns mbox, In (dns.SOA ns mbox) (dns.Ns r)) -> cname = "") /\
          ((forall ns mbox, ~ In (dns.SOA ns mbox) (dns.Ns r)) -> cname = ""))).
Proof.
  intros Hex. exists (fst (interpret r)). split; [|split].
  - rewrite getCNAME_run, Hex. simpl.
    rewrite <- (interpret_no_error r). now destruct (interpret r).
  - intros [target Hin].
    destruct (firstCNAME (dns.Answer r)) as [first|] eqn:E.
    + exists first. unfold interpret. rewrite E. simpl.
      split; [now apply firstCNAME_In|]. split; [reflexivity|]. split.
      * intros name ->. apply TrimSuffix_append.
      * apply TrimSuffix_other.
    + rewrite firstCNAME_None in E. now elim (E target).
  - intros Hnone. apply firstCNAME_None in Hnone.
    rewrite (interpret_no_CNAME r Hnone). simpl. tauto.
Qed.

Lemma getCNAME_answer_precedence_witness :
  exchange sampleEnv 2%nat (fqdn "abandoned.example.com") ("1.1.1.1" ++ ":53")
    = inr sampleReply /\
  exists cname,
    getCNAME sampleEnv "abandoned.example.com" "1.1.1.1" 2%nat =
      ([EvExchange (fqdn "abandoned.example.com") ("1.1.1.1" ++ ":53")],
       Some ((cname, None), 3%nat)).
Proof.
  split; [reflexivity|].
  destruct (getCNAME_answer_precedence sampleEnv "abandoned.example.com"
              "1.1.1.1" 2%nat sampleReply eq_refl) as [cname [H _]].
  exists cname. exact H.
Defined.

(** C10: when the answer section holds several CNAME records, the lookup
    returns the target of the first of them in the order of the section,
    whatever records, CNAME or not, come after it. *)
Theorem getCNAME_first_CNAME_wins
    (env : Env) (domain server : string) (t : nat) (r : dns.Msg)
    (before later : list dns.RR) (first : string) :
  exchange env t (fqdn domain) (server ++ ":53") = inr r ->
  dns.Answer r = (before ++ dns.CNAME first :: later)%list ->
  (forall target, ~ In (dns.CNAME target) before) ->
  getCNAME env domain server t =
    ([EvExchange (fqdn domain) (server ++ ":53")],
     Some ((strings.TrimSuffix first ".", None), S t)).
Proof.
  intros Hex Hans Hbefore.
  rewrite getCNAME_run, Hex. simpl. unfold interpret.
  now rewrite Hans, firstCNAME_app.
Qed.

Lemma getCNAME_first_CNAME_wins_witness :
  getCNAME sampleEnv "abandoned.example.com" "1.1.1.1" 2%nat =
    ([EvExchange "abandoned.example.com." "1.1.1.1:53"],
     Some (("bucket.s3.amazonaws.com", None), 3%nat)).
Proof.
  apply (getCNAME_first_CNAME_wins sampleEnv "abandoned.example.com" "1.1.1.1" 2%nat
           sampleReply [dns.Other 46 "sig"] [dns.CNAME "second.example.net."]
           "bucket.s3.amazonaws.com.").
  - reflexivity.
  - reflexivity.
  - intros target [H | []]. discriminate.
Defined.

(** ** Machine arithmetic in range *)

Lemma wrap64_small (z : Z) : min_int <= z <= max_int -> wrap64 z = z.
Proof.
  unfold wrap64, min_int, max_int. intros H.
  rewrite Z.mod_small by lia. lia.
Qed.

Lemma int_add_succ (k : nat) :
  Z.of_nat k < max_int -> int_add (Z.of_nat k) 1 = Z.of_nat (S k).
Proof.
  intros H. unfold int_add. rewrite wrap64_small; unfold min_int, max_int in *; lia.
Qed.

(** The delay before a retry is exact as long as it fits a [Duration]:
    up to 92233720368 times 100ms. *)
Lemma backoff_exact (i : Z) :
  0 <= i <= 92233720368 ->
  time.mul (time.mul time.Millisecond 100) i = 100000000 * i.
Proof.
  intros H. unfold time.mul, time.Millisecond.
  rewrite (wrap64_small (1000000 * 100)) by (unfold min_int, max_int; lia).
  rewrite wrap64_small; unfold min_int, max_int; lia.
Qed.

(** ** Projections of the events *)

Lemma resultLines_app (a b : list Event) :
  resultLines (a ++ b) = (resultLines a ++ resultLines b)%list.
Proof.
  induction a as [|e a IH]; simpl; [reflexivity|].
  destruct e; simpl; now rewrite IH.
Qed.

Lemma stderrLines_app (a b : list Event) :
  stderrLines (a ++ b) = (stderrLines a ++ stderrLines b)%list.
Proof.
  induction a as [|e a IH]; simpl; [reflexivity|].
  destruct e; simpl; now rewrite IH.
Qed.

Lemma attempts_app (a b : list Event) :
  attempts (a ++ b) = (attempts a + attempts b)%nat.
Proof.
  induction a as [|e a IH]; simpl; [reflexivity|].
  destruct e; simpl; now rewrite IH.
Qed.

Lemma delays_app (a b : list Event) :
  delays (a ++ b) = (delays a ++ delays b)%list.
Proof.
  induction a as [|e a IH]; simpl; [reflexivity|].
  destruct e; simpl; now rewrite IH.
Qed.

(** ** The retry loop *)

Section RetryFacts.

Variable config : Config.
Variable env : Env.
Variables domain server : string.

Local Abbreviation qname := (fqdn domain).
Local Abbreviation address := (server ++ ":53").
Local Abbreviation outcome t := (answerOf (exchange env t qname address)).
Local Abbreviation backoff i :=
  (if i <? retries config
   then [EvSleep (time.mul (time.mul time.Millisecond 100) (int_add i 1))]
   else []).

(** One turn of the loop, on the outcome of its query. *)
Lemma retryLoop_step (fuel : nat) (i : Z) (lastErr : option error) (t : nat) :
  retryLoop config env (S fuel) domain server i lastErr t =
  if i <=? retries config then
    match outcome t with
    | (cname, None) => ([EvExchange qname address], Some ((cname, None), S t))
    | (_, Some e) =>
        let '(evs, r) :=
          retryLoop config env fuel domain server (int_add i 1) (Some e) (S t) in
        ((EvExchange qname address :: backoff i ++ evs)%list, r)
    end
  else ([], Some (("", lastErr), t)).
Proof.
  cbn [retryLoop]. destruct (i <=? retries config); [|reflexivity].
  unfold bind at 1. rewrite getCNAME_run.
  destruct (outcome t) as [cname [e|]]; [|reflexivity].
  unfold bind at 1.
  destruct (i <? retries config); unfold emit, ret; cbn -[retryLoop int_add time.mul];
    destruct (retryLoop config env fuel domain server (int_add i 1) (Some e) (S t));
    reflexivity.
Qed.

(** A failed exchange is a failed attempt. *)
Lemma outcome_failed (t : nat) (e : error) :
  exchange env t qname address = inl e ->
  outcome t = ("", Some (Errorf_w "DNS query failed: " e)).
Proof. intros ->. reflexivity. Qed.

(** The events of the attempts [k], ..., [k + n - 1] when they all fail. *)
Local Abbreviation failures k n :=
  (flat_map (fun j : nat =>
     EvExchange qname address ::
     (if Z.of_nat j <? retries config
      then [EvSleep (time.mul (time.mul time.Millisecond 100) (Z.of_nat j + 1))]
      else [])) (seq k n)).

(** [n] failing attempts in a row, from attempt [k] at clock [t]: the loop
    sends the [n] queries, sleeps after each one that is not the last the
    configuration allows, and goes on with attempt [k + n], remembering the
    error of the last failure. *)
Lemma retryLoop_failures (n : nat) :
  forall (fuel k : nat) (lastErr : option error) (t : nat),
  Z.of_nat (k + n) <= retries config + 1 ->
  Z.of_nat (k + n) <= max_int ->
  (forall j, (j < n)%nat -> exists e, exchange env (t + j)%nat qname address = inl e) ->
  retryLoop config env (n + fuel) domain server (Z.of_nat k) lastErr t =
  let '(evs, r) :=
    retryLoop config env fuel domain server (Z.of_nat (k + n))
      (match n with
       | O => lastErr
       | S m => snd (outcome (t + m)%nat)
       end) (t + n)%nat in
  ((failures k n ++ evs)%list, r).
Proof.
  induction n as [|n IH]; intros fuel k lastErr t Hk Hmax Hfail.
  - simpl. rewrite !Nat.add_0_r.
    now destruct (retryLoop config env fuel domain server (Z.of_nat k) lastErr t).
  - change (S n + fuel)%nat with (S (n + fuel)). rewrite retryLoop_step.
    assert (Hle : (Z.of_nat k <=? retries config) = true) by (apply Z.leb_le; lia).
    rewrite Hle.
    destruct (Hfail O) as [e He]; [lia|]. rewrite Nat.add_0_r in He.
    rewrite (outcome_failed t e He).
    rewrite int_add_succ by lia.
    rewrite (IH fuel (S k) (Some (Errorf_w "DNS query failed: " e)) (S t)).
    + replace (S k + n)%nat with (k + S n)%nat by lia.
      replace (S t + n)%nat with (t + S n)%nat by lia.
      assert (Hlast :
        match n with
        | O => Some (Errorf_w "DNS query failed: " e)
        | S m => snd (outcome (S t + m)%nat)
        end = snd (outcome (t + n)%nat)).
      { destruct n as [|m].
        - rewrite Nat.add_0_r, (outcome_failed t e He). reflexivity.
        - now replace (S t + m)%nat with (t + S m)%nat by lia. }
      rewrite Hlast.
      destruct (retryLoop config env fuel domain server (Z.of_nat (k + S n))
                  (snd (outcome (t + n)%nat)) (t + S n)%nat) as [evs r].
      cbn [seq flat_map]. rewrite <- app_assoc.
      replace (Z.of_nat (S k)) with (Z.of_nat k + 1) by lia. reflexivity.
    + lia.
    + lia.
    + intros j Hj. replace (S t + j)%nat with (t + S j)%nat by lia.
      apply Hfail. lia.
Qed.

End RetryFacts.

Section FailureEvents.

Variable config : Config.
Variables qname address : string.

Local Abbreviation failures k n :=
  (flat_map (fun j : nat =>
     EvExchange qname address ::
     (if Z.of_nat j <? retries config
      then [EvSleep (time.mul (time.mul time.Millisecond 100) (Z.of_nat j + 1))]
      else [])) (seq k n)).

Lemma attempts_failures (n k : nat) : attempts (failures k n) = n.
Proof.
  revert k; induction n as [|n IH]; intros k; [reflexivity|].
  cbn [seq flat_map]. rewrite attempts_app, IH.
  destruct (Z.of_nat k <? retries config); reflexivity.
Qed.

Lemma resultLines_failures (n k : nat) : resultLines (failures k n) = [].
Proof.
  revert k; induction n as [|n IH]; intros k; [reflexivity|].
  cbn [seq flat_map]. rewrite resultLines_app, IH.
  destruct (Z.of_nat k <? retries config); reflexivity.
Qed.

Lemma stderrLines_failures (n k : nat) : stderrLines (failures k n) = [].
Proof.
  revert k; induction n as [|n IH]; intros k; [reflexivity|].
  cbn [seq flat_map]. rewrite stderrLines_app, IH.
  destruct (Z.of_nat k <? retries config); reflexivity.
Qed.

(** While retries remain, every failure is followed by its delay. *)
Lemma delays_failures_inner (n k : nat) :
  Z.of_nat (k + n) <= retries config ->
  delays (failures k n) =
  map (fun i : nat => time.mul (time.mul time.Millisecond 100) (Z.of_nat i))
      (seq (S k) n).
Proof.
  revert k; induction n as [|n IH]; intros k H; [reflexivity|].
  cbn [seq flat_map map]. rewrite delays_app, IH by lia.
  assert (Hlt : (Z.of_nat k <? retries config) = true) by (apply Z.ltb_lt; lia).
  rewrite Hlt. cbn [delays app].
  replace (Z.of_nat k + 1) with (Z.of_nat (S k)) by lia. reflexivity.
Qed.

(** The failure of the last attempt allowed is followed by no delay. *)
Lemma delays_failures_all (r : nat) :
  Z.of_nat r = retries config ->
  delays (failures 0 (S r)) =
  map (fun i : nat => time.mul (time.mul time.Millisecond 100) (Z.of_nat i))
      (seq 1 r).
Proof.
  intros H. replace (S r) with (r + 1)%nat by lia.
  rewrite seq_app, flat_map_app, delays_app, delays_failures_inner by (simpl; lia).
  cbn [seq flat_map Nat.add].
  assert (Hlt : (Z.of_nat r <? retries config) = false) by (apply Z.ltb_ge; lia).
  rewrite Hlt. cbn [delays app]. apply app_nil_r.
Qed.

End FailureEvents.

(** C2 (amended): for [0 <= retries < 2^63 - 1], when every CNAME query
    fails, the resolver makes exactly [retries + 1] attempts; the failure of
    attempt number [i], for [1 <= i <= retries], is followed by one delay
    before attempt [i + 1], of 100ms times [i] as a [time.Duration] product,
    which is exactly [i] times 100,000,000ns for [i <= 92233720368]; the
    last attempt is followed by no delay. *)
Theorem getCNAMEWithRetry_all_fail_schedule
    (config : Config) (env : Env) (domain server : string) (t : nat) :
  0 <= retries config < max_int ->
  (forall k q a, exists e, exchange env k q a = inl e) ->
  let run := getCNAMEWithRetry config env domain server in
  (exists err,
     run t =
     (flat_map (fun j : nat =>
        EvExchange (fqdn domain) (server ++ ":53") ::
        (if Z.of_nat j <? retries config
         then [EvSleep (time.mul (time.mul time.Millisecond 100) (Z.of_nat j + 1))]
         else [])) (seq 0 (Z.to_nat (retries config + 1))),
      Some (("", Some err), (t + Z.to_nat (retries config + 1))%nat))) /\
  Z.of_nat (attempts (events run t)) = retries config + 1 /\
  delays (events run t) =
    map (fun i : nat => time.mul (time.mul time.Millisecond 100) (Z.of_nat i))
        (seq 1 (Z.to_nat (retries config))) /\
  (forall i, 1 <= i <= retries config -> i <= 92233720368 ->
     nth_error (delays (events run t)) (Z.to_nat (i - 1)) = Some (100000000 * i)).
Proof.
  intros Hr Hfail run.
  set (n := Z.to_nat (retries config + 1)).
  assert (Hrun : exists err, run t =
    (flat_map (fun j : nat =>
        EvExchange (fqdn domain) (server ++ ":53") ::
        (if Z.of_nat j <? retries config
         then [EvSleep (time.mul (time.mul time.Millisecond 100) (Z.of_nat j + 1))]
         else [])) (seq 0 n),
     Some (("", Some err), (t + n)%nat))).
  { unfold run, getCNAMEWithRetry, retryFuel. fold n.
    replace (S n) with (n + 1)%nat by lia.
    change 0 with (Z.of_nat 0).
    rewrite retryLoop_failures; [| lia | lia | intros j _; apply Hfail].
    rewrite retryLoop_step.
    assert (Hgt : (Z.of_nat (0 + n) <=? retries config) = false)
      by (apply Z.leb_gt; lia).
    rewrite Hgt, app_nil_r.
    assert (Hn : n = S (Z.to_nat (retries config))) by lia.
    destruct n as [|m]; [discriminate|].
    destruct (Hfail (t + m)%nat (fqdn domain) (server ++ ":53")) as [e He].
    exists (Errorf_w "DNS query failed: " e). now rewrite He. }
  destruct Hrun as [err Hrun].
  assert (Hn : n = S (Z.to_nat (retries config))) by lia.
  assert (Hd : delays (events run t) =
    map (fun i : nat => time.mul (time.mul time.Millisecond 100) (Z.of_nat i))
        (seq 1 (Z.to_nat (retries config)))).
  { unfold events. rewrite Hrun. cbn [fst]. rewrite Hn.
    apply delays_failures_all. lia. }
  split; [now exists err|]. split; [|split].
  - unfold events. rewrite Hrun. cbn [fst]. rewrite attempts_failures. lia.
  - exact Hd.
  - intros i Hi Hbound. rewrite Hd, nth_error_map, nth_error_seq.
    assert (Hlt : (Z.to_nat (i - 1) <? Z.to_nat (retries config))%nat = true)
      by (apply Nat.ltb_lt; lia).
    rewrite Hlt. cbn [option_map]. f_equal.
    replace (Z.of_nat (1 + Z.to_nat (i - 1))) with i by lia.
    apply backoff_exact. lia.
Qed.

Lemma getCNAMEWithRetry_all_fail_schedule_witness :
  let run := getCNAMEWithRetry defaultConfig failingEnv "broken.example.com" "8.8.8.8" in
  Z.of_nat (attempts (events run 0%nat)) = 3 /\
  delays (events run 0%nat) =
    [time.mul (time.mul time.Millisecond 100) 1;
     time.mul (time.mul time.Millisecond 100) 2] /\
  nth_error (delays (events run 0%nat)) 1 = Some 200000000.
Proof.
  destruct (getCNAMEWithRetry_all_fail_schedule defaultConfig failingEnv
              "broken.example.com" "8.8.8.8" 0%nat) as [_ [Hn [Hd Hx]]].
  - simpl. unfold max_int. lia.
  - intros k q a. exists (NetError "i/o timeout"). reflexivity.
  - split; [exact Hn|]. split; [exact Hd|].
    apply (Hx 2); simpl; lia.
Defined.

(** ** The worker on one domain *)

Section ProcessFacts.

Variable config : Config.
Variable env : Env.
Variables domain server : string.

(** A lookup that does not return: nothing follows. *)
Lemma processDomain_diverges (t : nat) (evs : list Event) :
  getCNAMEWithRetry config env domain server t = (evs, None) ->
  processDomain config env domain server t = (evs, None).
Proof. intros H. unfold processDomain, bind. now rewrite H. Qed.

(** A failed lookup: a line on the error stream when verbose, nothing else. *)
Lemma processDomain_failed (t t' : nat) (evs : list Event) (cname : string) (e : error) :
  getCNAMEWithRetry config env domain server t = (evs, Some ((cname, Some e), t')) ->
  processDomain config env domain server t =
  ((evs ++ if verbose config
           then [EvStderr ("Error querying " ++ domain ++ ": " ++ Error e ++ newline)]
           else [])%list,
   Some (tt, t')).
Proof.
  intros H. unfold processDomain, bind. rewrite H.
  destruct (verbose config); reflexivity.
Qed.

(** No CNAME: a line on the error stream when verbose, nothing else. *)
Lemma processDomain_no_cname (t t' : nat) (evs : list Event) :
  getCNAMEWithRetry config env domain server t = (evs, Some (("", None), t')) ->
  processDomain config env domain server t =
  ((evs ++ if verbose config
           then [EvStderr ("No CNAME for " ++ domain ++ newline)]
           else [])%list,
   Some (tt, t')).
Proof.
  intros H. unfold processDomain, bind. rewrite H.
  destruct (verbose config); reflexivity.
Qed.

(** A CNAME: the target is checked; one that resolves is reported when
    verbose, one that does not is reported and then classified. *)
Lemma processDomain_cname (t t' : nat) (evs : list Event) (cname : string) :
  cname <> "" ->
  getCNAMEWithRetry config env domain server t = (evs, Some ((cname, None), t')) ->
  processDomain config env domain server t =
  let host := strings.TrimSuffix cname "." in
  if lookupHost env t' host
  then ((evs ++ EvLookupHost host ::
           if verbose config then [EvResult (render (OK domain cname))] else [])%list,
        Some (tt, S t'))
  else
    let service := checkVulnerableService (mapChoices env (S t')) cname in
    ((evs ++ EvLookupHost host :: EvResult (render (Dangling domain cname)) ::
        if String.eqb service "" then []
        else [EvResult (render (Takeover domain cname service))])%list,
     Some (tt, S (S t'))).
Proof.
  intros Hne H. unfold processDomain, bind at 1. rewrite H.
  apply String.eqb_neq in Hne. rewrite Hne.
  unfold resolves, bind, emit, ask, ret. cbn -[checkVulnerableService render].
  destruct (lookupHost env t' (strings.TrimSuffix cname ".")); cbn -[checkVulnerableService render].
  - destruct (verbose config); reflexivity.
  - destruct (String.eqb (checkVulnerableService (mapChoices env (S t')) cname) "");
      reflexivity.
Qed.

(** The retry loop sends nothing on [results] and writes nothing to the
    error stream. *)
Lemma retryLoop_silent (fuel : nat) :
  forall (i : Z) (lastErr : option error) (t : nat),
  resultLines (fst (retryLoop config env fuel domain server i lastErr t)) = [] /\
  stderrLines (fst (retryLoop config env fuel domain server i lastErr t)) = [].
Proof.
  induction fuel as [|fuel IH]; intros i lastErr t; [split; reflexivity|].
  rewrite retryLoop_step.
  destruct (i <=? retries config); [|split; reflexivity].
  destruct (answerOf _) as [cname [e|]]; [|split; reflexivity].
  specialize (IH (int_add i 1) (Some e) (S t)).
  destruct (retryLoop config env fuel domain server (int_add i 1) (Some e) (S t))
    as [evs r].
  cbn [fst] in *. destruct IH as [IH1 IH2].
  destruct (i <? retries config); cbn [resultLines stderrLines app];
    now rewrite IH1, IH2.
Qed.

Lemma getCNAMEWithRetry_silent (t : nat) :
  resultLines (fst (getCNAMEWithRetry config env domain server t)) = [] /\
  stderrLines (fst (getCNAMEWithRetry config env domain server t)) = [].
Proof. apply retryLoop_silent. Qed.

(** The loop returns once it has fuel for the attempts that remain, as long
    as its counter cannot wrap; more fuel changes nothing. *)
Lemma retryLoop_returns (fuel : nat) :
  forall (i : Z) (lastErr : option error) (t : nat),
  retries config < max_int ->
  min_int <= i ->
  (Z.to_nat (retries config + 1 - i) < fuel)%nat ->
  exists evs answer t',
    retryLoop config env fuel domain server i lastErr t = (evs, Some (answer, t')).
Proof.
  induction fuel as [|fuel IH]; intros i lastErr t Hmax Hi Hfuel; [lia|].
  rewrite retryLoop_step.
  destruct (i <=? retries config) eqn:Hle; [|now eexists _, _, _].
  apply Z.leb_le in Hle.
  destruct (answerOf _) as [cname [e|]]; [|now eexists _, _, _].
  assert (Hnext : int_add i 1 = i + 1)
    by (unfold int_add; apply wrap64_small; unfold min_int in *; lia).
  destruct (IH (int_add i 1) (Some e) (S t)) as [evs [answer [t' Hrun]]];
    [exact Hmax | lia | lia |].
  rewrite Hrun. now eexists _, _, _.
Qed.

Lemma retryLoop_more_fuel (fuel : nat) :
  forall (i : Z) (lastErr : option error) (t : nat) evs answer,
  retryLoop config env fuel domain server i lastErr t = (evs, Some answer) ->
  retryLoop config env (S fuel) domain server i lastErr t = (evs, Some answer).
Proof.
  induction fuel as [|fuel IH]; intros i lastErr t evs answer H; [discriminate|].
  rewrite retryLoop_step in H. rewrite retryLoop_step.
  destruct (i <=? retries config); [|exact H].
  destruct (answerOf _) as [cname [e|]]; [|exact H].
  destruct (retryLoop config env fuel domain server (int_add i 1) (Some e) (S t))
    as [evs' [answer'|]] eqn:E; [|discriminate].
  now rewrite (IH _ _ _ _ _ E).
Qed.

(** The resolver returns for every [retries] below the largest [int]. *)
Lemma getCNAMEWithRetry_returns (t : nat) :
  retries config < max_int ->
  exists evs answer t',
    getCNAMEWithRetry config env domain server t = (evs, Some (answer, t')).
Proof.
  intros Hmax. apply retryLoop_returns; [exact Hmax | unfold min_int; lia |].
  unfold retryFuel. lia.
Qed.

(** And so does the worker. *)
Lemma processDomain_returns (t : nat) :
  retries config < max_int ->
  exists evs t', processDomain config env domain server t = (evs, Some (tt, t')).
Proof.
  intros Hmax.
  destruct (getCNAMEWithRetry_returns t Hmax) as [evs [[cname [e|]] [t' Hrun]]].
  - rewrite (processDomain_failed _ _ _ _ _ Hrun). now eexists _, _.
  - destruct (String.eqb cname "") eqn:E.
    + apply String.eqb_eq in E. subst cname.
      rewrite (processDomain_no_cname _ _ _ Hrun). now eexists _, _.
    + apply String.eqb_neq in E.
      rewrite (processDomain_cname _ _ _ _ E Hrun). cbv zeta.
      destruct (lookupHost env t' (strings.TrimSuffix cname ".")); now eexists _, _.
Qed.

End ProcessFacts.

(** ** The resolver with retries *)

(** [k] failures, then an answer: the resolver returns what the answer
    reads as, having sent [k + 1] queries. *)
Lemma retry_first_success
    (config : Config) (env : Env) (domain server : string) (t k : nat) (r : dns.Msg) :
  retries config <= max_int ->
  Z.of_nat k <= retries config ->
  (forall j, (j < k)%nat ->
     exists e, exchange env (t + j)%nat (fqdn domain) (server ++ ":53") = inl e) ->
  exchange env (t + k)%nat (fqdn domain) (server ++ ":53") = inr r ->
  exists evs,
    getCNAMEWithRetry config env domain server t =
      (evs, Some ((fst (interpret r), None), S (t + k))) /\
    attempts evs = S k.
Proof.
  intros Hmax Hk Hfail Hok.
  unfold getCNAMEWithRetry, retryFuel.
  replace (S (Z.to_nat (retries config + 1)))
    with (k + S (Z.to_nat (retries config + 1) - k))%nat by lia.
  change 0 with (Z.of_nat 0).
  rewrite retryLoop_failures; [| lia | lia | exact Hfail].
  rewrite retryLoop_step.
  assert (Hle : (Z.of_nat (0 + k) <=? retries config) = true) by (apply Z.leb_le; lia).
  rewrite Hle, Hok. cbn [answerOf].
  pose proof (interpret_no_error r) as Hnone.
  destruct (interpret r) as [cname err]. cbn [snd fst] in *. subst err.
  eexists. split; [reflexivity|].
  rewrite attempts_app, attempts_failures. simpl. lia.
Qed.

(** Failures on every attempt the configuration allows: the resolver
    returns the error of the last one. *)
Lemma retry_all_fail
    (config : Config) (env : Env) (domain server : string) (t : nat) (e : error) :
  0 <= retries config < max_int ->
  (forall j, Z.of_nat j <= retries config ->
     exists e', exchange env (t + j)%nat (fqdn domain) (server ++ ":53") = inl e') ->
  exchange env (t + Z.to_nat (retries config))%nat (fqdn domain) (server ++ ":53")
    = inl e ->
  exists evs,
    getCNAMEWithRetry config env domain server t =
      (evs, Some (("", Some (Errorf_w "DNS query failed: " e)),
                  (t + Z.to_nat (retries config + 1))%nat)) /\
    Z.of_nat (attempts evs) = retries config + 1.
Proof.
  intros Hr Hfail Hlast.
  unfold getCNAMEWithRetry, retryFuel.
  set (n := Z.to_nat (retries config + 1)).
  replace (S n) with (n + 1)%nat by lia.
  change 0 with (Z.of_nat 0).
  rewrite retryLoop_failures; [| lia | lia | intros j Hj; apply Hfail; lia].
  rewrite retryLoop_step.
  assert (Hgt : (Z.of_nat (0 + n) <=? retries config) = false) by (apply Z.leb_gt; lia).
  rewrite Hgt, app_nil_r.
  assert (Hn : n = S (Z.to_nat (retries config))) by lia.
  clearbody n. subst n. cbn iota. rewrite Hlast. cbn [answerOf snd].
  eexists. split; [reflexivity|].
  rewrite attempts_failures. lia.
Qed.

(** C7: the resolver returns the result of the first attempt that succeeds,
    and makes no attempt after it; when all the attempts it is allowed fail,
    it returns the error of the last of them, and the worker then produces no
    finding for the domain and writes its diagnostic to the error stream
    exactly when verbose is set.  [retries] ranges over Go's [int]; in the
    all-fail case, over the non-negative values whose successor the loop
    counter can hold. *)
Theorem getCNAMEWithRetry_first_success_else_last_error
    (config : Config) (env : Env) (domain server : string) (t : nat) :
  retries config <= max_int ->
  (forall (k : nat) (r : dns.Msg),
     Z.of_nat k <= retries config ->
     (forall j, (j < k)%nat ->
        exists e, exchange env (t + j)%nat (fqdn domain) (server ++ ":53") = inl e) ->
     exchange env (t + k)%nat (fqdn domain) (server ++ ":53") = inr r ->
     snd (getCNAMEWithRetry config env domain server t)
       = Some (interpret r, S (t + k)) /\
     snd (interpret r) = None /\
     attempts (events (getCNAMEWithRetry config env domain server) t) = S k) /\
  (forall e : error,
     0 <= retries config < max_int ->
     (forall j, Z.of_nat j <= retries config ->
        exists e', exchange env (t + j)%nat (fqdn domain) (server ++ ":53") = inl e') ->
     exchange env (t + Z.to_nat (retries config))%nat (fqdn domain) (server ++ ":53")
       = inl e ->
     result (getCNAMEWithRetry config env domain server) t
       = Some ("", Some (Errorf_w "DNS query failed: " e)) /\
     result (processDomain config env domain server) t = Some tt /\
     resultLines (events (processDomain config env domain server) t) = [] /\
     stderrLines (events (processDomain config env domain server) t) =
       if verbose config
       then ["Error querying " ++ domain ++ ": DNS query failed: " ++ Error e ++ newline]
       else []).
Proof.
  intros Hmax. split.
  - intros k r Hk Hfail Hok.
    destruct (retry_first_success config env domain server t k r Hmax Hk Hfail Hok)
      as [evs [Hrun Hn]].
    pose proof (interpret_no_error r) as Hnone.
    unfold events. rewrite Hrun. cbn [fst snd].
    destruct (interpret r) as [cname err]. cbn [fst snd] in *. subst err.
    repeat split. exact Hn.
  - intros e Hr Hfail Hlast.
    destruct (retry_all_fail config env domain server t e Hr Hfail Hlast)
      as [evs [Hrun _]].
    pose proof (getCNAMEWithRetry_silent config env domain server t) as [Hres Herr].
    rewrite Hrun in Hres, Herr. cbn [fst] in Hres, Herr.
    unfold result, events.
    rewrite (processDomain_failed config env domain server _ _ _ _ _ Hrun), Hrun.
    cbn [fst snd option_map].
    rewrite resultLines_app, stderrLines_app, Hres, Herr.
    destruct (verbose config); repeat split.
Qed.

Lemma getCNAMEWithRetry_first_success_else_last_error_witness :
  snd (getCNAMEWithRetry defaultConfig sampleEnv "abandoned.example.com" "1.1.1.1" 0%nat)
    = Some (interpret sampleReply, 3%nat) /\
  result (getCNAMEWithRetry defaultConfig failingEnv "broken.example.com" "8.8.8.8") 0%nat
    = Some ("", Some (Errorf_w "DNS query failed: " (NetError "i/o timeout"))) /\
  resultLines (events (processDomain defaultConfig failingEnv "broken.example.com"
                         "8.8.8.8") 0%nat) = [].
Proof.
  assert (Hmax : retries defaultConfig <= max_int) by (simpl; unfold max_int; lia).
  split.
  - destruct (getCNAMEWithRetry_first_success_else_last_error defaultConfig sampleEnv
                "abandoned.example.com" "1.1.1.1" 0%nat Hmax) as [Hfirst _].
    destruct (Hfirst 2%nat sampleReply) as [Hrun _].
    + simpl. lia.
    + intros j Hj. exists (NetError "i/o timeout").
      destruct j as [|[|j]]; [reflexivity | reflexivity | lia].
    + reflexivity.
    + exact Hrun.
  - destruct (getCNAMEWithRetry_first_success_else_last_error defaultConfig failingEnv
                "broken.example.com" "8.8.8.8" 0%nat Hmax) as [_ Hlast].
    destruct (Hlast (NetError "i/o timeout")) as [Hres [_ [Hlines _]]].
    + simpl. unfold max_int. lia.
    + intros j _. exists (NetError "i/o timeout"). reflexivity.
    + reflexivity.
    + split; [exact Hres | exact Hlines].
Defined.

(** C9: with a negative [retries] the resolver makes no attempt and returns
    the empty string with a nil error; the worker then takes the path of a
    domain without CNAME: no finding, and when verbose the notice of a
    missing CNAME, not the diagnostic of a failed query. *)
Theorem getCNAMEWithRetry_negative_retries
    (config : Config) (env : Env) (domain server : string) (t : nat) :
  retries config < 0 ->
  getCNAMEWithRetry config env domain server t = ([], Some (("", None), t)) /\
  attempts (events (getCNAMEWithRetry config env domain server) t) = O /\
  processDomain config env domain server t =
    ((if verbose config
      then [EvStderr ("No CNAME for " ++ domain ++ newline)]
      else []),
     Some (tt, t)).
Proof.
  intros Hneg.
  assert (Hrun : getCNAMEWithRetry config env domain server t
                 = ([], Some (("", None), t))).
  { unfold getCNAMEWithRetry, retryFuel. rewrite retryLoop_step.
    assert (Hgt : (0 <=? retries config) = false) by (apply Z.leb_gt; lia).
    now rewrite Hgt. }
  split; [exact Hrun|]. split.
  - unfold events. now rewrite Hrun.
  - now rewrite (processDomain_no_cname config env domain server _ _ _ Hrun).
Qed.

Lemma getCNAMEWithRetry_negative_retries_witness :
  getCNAMEWithRetry (mkConfig 20 (time.mul 5 time.Second) true defaultResolvers (-1))
    sampleEnv "abandoned.example.com" "1.1.1.1" 0%nat
  = ([], Some (("", None), 0%nat)).
Proof.
  apply (getCNAMEWithRetry_negative_retries
           (mkConfig 20 (time.mul 5 time.Second) true defaultResolvers (-1))
           sampleEnv "abandoned.example.com" "1.1.1.1" 0%nat).
  simpl. lia.
Defined.

(** C5: when the lookup of a domain returns a non-empty target that the
    verifier does not resolve, a Dangling finding is always sent; a Takeover
    finding is sent right after it exactly when the classifier returns a
    non-empty service name; so for a target that contains a pattern of the
    table the findings of the domain are two, Dangling then Takeover. *)
Theorem processDomain_dangling_then_takeover
    (config : Config) (env : Env) (domain server : string) (t t' : nat)
    (evs : list Event) (cname : string) :
  getCNAMEWithRetry config env domain server t = (evs, Some ((cname, None), t')) ->
  cname <> "" ->
  lookupHost env t' (strings.TrimSuffix cname ".") = false ->
  let service := checkVulnerableService (mapChoices env (S t')) cname in
  let sent := events (processDomain config env domain server) t in
  sent = (evs ++ EvLookupHost (strings.TrimSuffix cname ".") ::
            EvResult (render (Dangling domain cname)) ::
            if String.eqb service "" then []
            else [EvResult (render (Takeover domain cname service))])%list /\
  (service = "" -> resultLines sent = [render (Dangling domain cname)]) /\
  (service <> "" ->
     resultLines sent = [render (Dangling domain cname);
                         render (Takeover domain cname service)]) /\
  ((exists pattern name, In (pattern, name) vulnerablePatterns /\
      strings.Contains (strings.ToLower cname) pattern = true) ->
   service <> "" /\
   resultLines sent = [render (Dangling domain cname);
                       render (Takeover domain cname service)]).
Proof.
  intros Hrun Hne Hdead service sent.
  assert (Hsent : sent =
    (evs ++ EvLookupHost (strings.TrimSuffix cname ".") ::
       EvResult (render (Dangling domain cname)) ::
       if String.eqb service "" then []
       else [EvResult (render (Takeover domain cname service))])%list).
  { unfold sent, events.
    rewrite (processDomain_cname config env domain server _ _ _ _ Hne Hrun).
    cbv zeta. now rewrite Hdead. }
  pose proof (getCNAMEWithRetry_silent config env domain server t) as [Hquiet _].
  rewrite Hrun in Hquiet. cbn [fst] in Hquiet.
  assert (Hempty : service = "" -> resultLines sent = [render (Dangling domain cname)]).
  { intros E. rewrite Hsent, resultLines_app, Hquiet, E. reflexivity. }
  assert (Hfull : service <> "" ->
    resultLines sent = [render (Dangling domain cname);
                        render (Takeover domain cname service)]).
  { intros E. apply String.eqb_neq in E.
    rewrite Hsent, resultLines_app, Hquiet, E. reflexivity. }
  split; [exact Hsent|]. split; [exact Hempty|]. split; [exact Hfull|].
  intros [pattern [name [Hin Hc]]].
  assert (Hs : service <> "").
  { intros E.
    destruct (checkVulnerableService_empty (mapChoices env (S t')) cname) as [H _].
    rewrite (H E pattern name Hin) in Hc. discriminate. }
  split; [exact Hs | now apply Hfull].
Qed.

Lemma processDomain_dangling_then_takeover_witness :
  resultLines (events (processDomain defaultConfig sampleEnv "abandoned.example.com"
                         "1.1.1.1") 0%nat) =
  [render (Dangling "abandoned.example.com" "bucket.s3.amazonaws.com");
   render (Takeover "abandoned.example.com" "bucket.s3.amazonaws.com" "AWS S3")].
Proof.
  destruct (processDomain_dangling_then_takeover defaultConfig sampleEnv
              "abandoned.example.com" "1.1.1.1" 0%nat 3%nat
              (fst (getCNAMEWithRetry defaultConfig sampleEnv
                      "abandoned.example.com" "1.1.1.1" 0%nat))
              "bucket.s3.amazonaws.com") as [_ [_ [Hboth _]]].
  - vm_compute. reflexivity.
  - discriminate.
  - reflexivity.
  - apply Hboth. vm_compute. discriminate.
Defined.

(** C6: when the lookup of a domain returns a non-empty target that the
    verifier resolves, the worker sends an OK finding when verbose is set
    and no finding at all when it is not. *)
Theorem processDomain_ok_iff_verbose
    (config : Config) (env : Env) (domain server : string) (t t' : nat)
    (evs : list Event) (cname : string) :
  getCNAMEWithRetry config env domain server t = (evs, Some ((cname, None), t')) ->
  cname <> "" ->
  lookupHost env t' (strings.TrimSuffix cname ".") = true ->
  let sent := resultLines (events (processDomain config env domain server) t) in
  sent = (if verbose config then [render (OK domain cname)] else []) /\
  (In (render (OK domain cname)) sent <-> verbose config = true) /\
  (verbose config = false -> sent = []).
Proof.
  intros Hrun Hne Hlive sent.
  pose proof (getCNAMEWithRetry_silent config env domain server t) as [Hquiet _].
  rewrite Hrun in Hquiet. cbn [fst] in Hquiet.
  assert (Hsent : sent = if verbose config then [render (OK domain cname)] else []).
  { unfold sent, events.
    rewrite (processDomain_cname config env domain server _ _ _ _ Hne Hrun).
    cbv zeta. rewrite Hlive. cbn [fst]. rewrite resultLines_app, Hquiet.
    destruct (verbose config); reflexivity. }
  split; [exact Hsent|]. rewrite Hsent.
  destruct (verbose config); split.
  - split; [reflexivity | intros _; now left].
  - discriminate.
  - split; [intros [] | discriminate].
  - reflexivity.
Qed.

Lemma processDomain_ok_iff_verbose_witness :
  resultLines (events (processDomain verboseConfig resolvingEnv "stale.example.com"
                         "8.8.8.8") 0%nat) =
    [render (OK "stale.example.com" "old-app.herokuapp.com")] /\
  resultLines (events (processDomain defaultConfig resolvingEnv "stale.example.com"
                         "8.8.8.8") 0%nat) = [].
Proof.
  split.
  - apply (processDomain_ok_iff_verbose verboseConfig resolvingEnv
             "stale.example.com" "8.8.8.8" 0%nat 1%nat
             [EvExchange "stale.example.com." "8.8.8.8:53"] "old-app.herokuapp.com").
    + vm_compute. reflexivity.
    + discriminate.
    + reflexivity.
  - apply (processDomain_ok_iff_verbose defaultConfig resolvingEnv
             "stale.example.com" "8.8.8.8" 0%nat 1%nat
             [EvExchange "stale.example.com." "8.8.8.8:53"] "old-app.herokuapp.com").
    + vm_compute. reflexivity.
    + discriminate.
    + reflexivity.
    + reflexivity.
Defined.

(** C8: every line the worker sends for a job is the rendering of a finding,
    OK, Dangling or Takeover, whose domain is the domain of the job as it was
    given, and whose CNAME is the value the resolver returned for it. *)
Theorem processDomain_findings_name_job_domain
    (config : Config) (env : Env) (domain server : string) (t : nat) (line : string) :
  In line (resultLines (events (processDomain config env domain server) t)) ->
  exists (f : Finding) (evs : list Event) (t' : nat),
    line = render f /\
    findingDomain f = domain /\
    getCNAMEWithRetry config env domain server t
      = (evs, Some ((findingCNAME f, None), t')).
Proof.
  pose proof (getCNAMEWithRetry_silent config env domain server t) as [Hquiet _].
  destruct (getCNAMEWithRetry config env domain server t)
    as [evs [[[cname [e|]] t']|]] eqn:Hrun; cbn [fst] in Hquiet; unfold events.
  - rewrite (processDomain_failed config env domain server _ _ _ _ _ Hrun).
    cbn [fst]. rewrite resultLines_app, Hquiet.
    destruct (verbose config); intros [].
  - destruct (String.eqb cname "") eqn:E.
    + apply String.eqb_eq in E. subst cname.
      rewrite (processDomain_no_cname config env domain server _ _ _ Hrun).
      cbn [fst]. rewrite resultLines_app, Hquiet.
      destruct (verbose config); intros [].
    + apply String.eqb_neq in E.
      rewrite (processDomain_cname config env domain server _ _ _ _ E Hrun).
      cbv zeta.
      destruct (lookupHost env t' (strings.TrimSuffix cname ".")); cbn [fst];
        rewrite resultLines_app, Hquiet.
      * destruct (verbose config); [|intros []].
        intros [<- | []]. now exists (OK domain cname), evs, t'.
      * cbn [app resultLines].
        intros [<- | Hin]; [now exists (Dangling domain cname), evs, t'|].
        destruct (String.eqb (checkVulnerableService (mapChoices env (S t')) cname) "");
          [destruct Hin|].
        destruct Hin as [<- | []].
        now exists (Takeover domain cname
                      (checkVulnerableService (mapChoices env (S t')) cname)), evs, t'.
  - rewrite (processDomain_diverges config env domain server _ _ Hrun).
    cbn [fst]. rewrite Hquiet. intros [].
Qed.

Lemma processDomain_findings_name_job_domain_witness :
  exists (f : Finding) (evs : list Event) (t' : nat),
    render (Dangling "abandoned.example.com" "bucket.s3.amazonaws.com") = render f /\
    findingDomain f = "abandoned.example.com" /\
    getCNAMEWithRetry defaultConfig sampleEnv "abandoned.example.com" "1.1.1.1" 0%nat
      = (evs, Some ((findingCNAME f, None), t')).
Proof.
  apply (processDomain_findings_name_job_domain defaultConfig sampleEnv
           "abandoned.example.com" "1.1.1.1" 0%nat).
  vm_compute. left. reflexivity.
Defined.

(** ** Text: bytes, runes and white space *)

Section TextFacts.

Local Open Scope nat_scope.

Lemma byte_nat (c : ascii) : byte c = Z.of_nat (nat_of_ascii c).
Proof. unfold byte, nat_of_ascii. now rewrite N_nat_Z. Qed.

Lemma length_drop (n : nat) (s : string) :
  String.length (drop n s) = String.length s - n.
Proof.
  revert s; induction n as [|n IH]; intros s; simpl; [lia|].
  destruct s as [|c s]; simpl; [reflexivity | apply IH].
Qed.

Lemma drop_append (a b : string) : drop (String.length a) (a ++ b) = b.
Proof. induction a as [|c a IH]; simpl; [reflexivity | exact IH]. Qed.

Lemma substring_prefix_app (a b : string) (n : nat) :
  substring 0 (String.length a + n) (a ++ b) = a ++ substring 0 n b.
Proof. induction a as [|c a IH]; simpl; [reflexivity | now rewrite IH]. Qed.

Lemma get_app_last (x : string) (c : ascii) (s : string) :
  String.get (String.length x) (x ++ String c s) = Some c.
Proof. induction x as [|d x IH]; simpl; [reflexivity | exact IH]. Qed.

(** A string that is not empty ends in a byte. *)
Lemma string_last (s : string) :
  s <> "" -> exists front c, s = front ++ String c "".
Proof.
  induction s as [|d s IH]; intros H; [now elim H|].
  destruct s as [|e s].
  - now exists "", d.
  - destruct IH as [front [c Hs]]; [discriminate|].
    exists (String d front), c. simpl. now rewrite <- Hs.
Qed.

(** Its first [S n] bytes are its first [n] and the byte at [n]. *)
Lemma substring_snoc (s : string) (n : nat) :
  n < String.length s ->
  exists c, In c (list_ascii_of_string s) /\
            substring 0 (S n) s = substring 0 n s ++ String c "".
Proof.
  revert n; induction s as [|d s IH]; intros n H; simpl in H; [lia|].
  destruct n as [|n].
  - exists d. split; [now left|]. simpl. now destruct s.
  - destruct (IH n) as [c [Hin Hs]]; [lia|].
    exists c. split; [now right|].
    change (substring 0 (S (S n)) (String d s)) with (String d (substring 0 (S n) s)).
    now rewrite Hs.
Qed.

(** *** Decoding *)

Lemma Decode_ascii (c : ascii) (rest : string) :
  (byte c < 128)%Z ->
  utf8.DecodeRuneInString (String c rest) = (byte c, 1).
Proof.
  intros H. unfold utf8.DecodeRuneInString.
  apply Z.ltb_lt in H. now rewrite H.
Qed.

Lemma DecodeLast_ascii (x : string) (c : ascii) :
  (byte c < 128)%Z ->
  utf8.DecodeLastRuneInString (x ++ String c "") = (byte c, 1).
Proof.
  intros H. unfold utf8.DecodeLastRuneInString.
  rewrite length_append. cbn [String.length].
  replace (String.length x + 1) with (S (String.length x)) by lia.
  cbv zeta. unfold byteAt.
  replace (S (String.length x) - 1) with (String.length x) by lia.
  rewrite get_app_last. unfold utf8.RuneSelf.
  apply Z.ltb_lt in H. now rewrite H.
Qed.

(** The width of a rune is between one and four bytes. *)
Lemma Decode_width (s : string) :
  s <> "" ->
  1 <= snd (utf8.DecodeRuneInString s) <= 4.
Proof.
  intros H. unfold utf8.DecodeRuneInString.
  destruct s as [|c0 [|c1 [|c2 [|c3 s]]]]; [now elim H | | | |];
    repeat match goal with
           | |- context [if ?b then _ else _] => destruct b
           end; cbn [snd]; lia.
Qed.

Lemma lastStart_lt (s : string) :
  s <> "" -> utf8.lastStart s < String.length s.
Proof.
  intros H. unfold utf8.lastStart. cbv zeta.
  assert (He : 0 < String.length s) by (destruct s; [now elim H | simpl; lia]).
  generalize dependent (String.length s). intros e He.
  destruct ((2 <=? e) && utf8.RuneStart (byteAt s (e - 2)))%bool eqn:E2.
  { apply andb_true_iff in E2. destruct E2 as [E2 _]. apply Nat.leb_le in E2. lia. }
  destruct ((3 <=? e) && utf8.RuneStart (byteAt s (e - 3)))%bool eqn:E3.
  { apply andb_true_iff in E3. destruct E3 as [E3 _]. apply Nat.leb_le in E3. lia. }
  destruct ((4 <=? e) && utf8.RuneStart (byteAt s (e - 4)))%bool eqn:E4.
  { apply andb_true_iff in E4. destruct E4 as [E4 _]. apply Nat.leb_le in E4. lia. }
  destruct (5 <=? e) eqn:E5; [apply Nat.leb_le in E5|]; lia.
Qed.

Lemma DecodeLast_width (s : string) :
  s <> "" ->
  1 <= snd (utf8.DecodeLastRuneInString s) <= String.length s.
Proof.
  intros H. pose proof (lastStart_lt s H) as Hstart.
  unfold utf8.DecodeLastRuneInString.
  destruct (String.length s) as [|e] eqn:E; [lia|]. cbv zeta.
  destruct (byteAt s (S e - 1) <? utf8.RuneSelf)%Z; [cbn [snd]; lia|].
  destruct (utf8.DecodeRuneInString _) as [r size].
  destruct (utf8.lastStart s + size =? S e) eqn:Hsz; cbn [snd]; [|lia].
  apply Nat.eqb_eq in Hsz. lia.
Qed.

(** *** Fuel

    The loops over the runes of a string get one unit of fuel per byte,
    which is enough: more changes nothing. *)

Lemma trimLeftLoop_fuel (f : Z -> bool) (fuel : nat) :
  forall (fuel' : nat) (s : string),
  String.length s <= fuel -> String.length s <= fuel' ->
  strings.trimLeftLoop fuel f s = strings.trimLeftLoop fuel' f s.
Proof.
  induction fuel as [|fuel IH]; intros fuel' s H H'.
  - destruct s; [|simpl in H; lia]. now destruct fuel'.
  - destruct s as [|c s]; [now destruct fuel'|].
    destruct fuel' as [|fuel']; [simpl in H'; lia|].
    cbn [strings.trimLeftLoop].
    pose proof (Decode_width (String c s)) as Hw.
    destruct (utf8.DecodeRuneInString (String c s)) as [r w]. cbn [snd] in Hw.
    destruct (f r); [|reflexivity].
    assert (1 <= w <= 4) by (apply Hw; discriminate).
    apply IH; rewrite length_drop; cbn [String.length] in *; lia.
Qed.

Lemma mapLoop_fuel (mapping : Z -> Z) (fuel : nat) :
  forall (fuel' : nat) (s : string),
  String.length s <= fuel -> String.length s <= fuel' ->
  strings.mapLoop fuel mapping s = strings.mapLoop fuel' mapping s.
Proof.
  induction fuel as [|fuel IH]; intros fuel' s H H'.
  - destruct s; [|simpl in H; lia]. now destruct fuel'.
  - destruct s as [|c s]; [now destruct fuel'|].
    destruct fuel' as [|fuel']; [simpl in H'; lia|].
    cbn [strings.mapLoop].
    pose proof (Decode_width (String c s)) as Hw.
    destruct (utf8.DecodeRuneInString (String c s)) as [r w]. cbn [snd] in Hw.
    assert (1 <= w <= 4) by (apply Hw; discriminate).
    f_equal. apply IH; rewrite length_drop; cbn [String.length] in *; lia.
Qed.

Lemma length_substring_prefix (s : string) (i : nat) :
  i <= String.length s -> String.length (substring 0 i s) = i.
Proof.
  revert i; induction s as [|c s IH]; intros i H; simpl in H.
  - now replace i with 0 by lia.
  - destruct i as [|i]; [reflexivity|]. simpl. rewrite IH; lia.
Qed.

Lemma lastIndexLoop_fuel (f : Z -> bool) (truth : bool) (s : string) (fuel : nat) :
  forall (fuel' i : nat),
  i <= String.length s -> i <= fuel -> i <= fuel' ->
  strings.lastIndexLoop fuel f truth s i = strings.lastIndexLoop fuel' f truth s i.
Proof.
  induction fuel as [|fuel IH]; intros fuel' i Hs H H'.
  - replace i with 0 by lia. now destruct fuel'.
  - destruct i as [|i]; [now destruct fuel'|].
    destruct fuel' as [|fuel']; [lia|].
    cbn [strings.lastIndexLoop].
    pose proof (DecodeLast_width (substring 0 (S i) s)) as Hw.
    rewrite length_substring_prefix in Hw by lia.
    destruct (utf8.DecodeLastRuneInString (substring 0 (S i) s)) as [r size].
    cbn [snd] in Hw.
    assert (1 <= size <= S i).
    { apply Hw. intros E. apply (f_equal String.length) in E.
      rewrite length_substring_prefix in E by lia. discriminate. }
    destruct (Bool.eqb (f r) truth); [reflexivity|].
    apply IH; lia.
Qed.

End TextFacts.

(** ** White space *)

Section SpaceFacts.

Local Open Scope nat_scope.

(** The white space of ASCII: tab, line feed, vertical tab, form feed,
    carriage return, space. *)
Local Abbreviation asciiBlank c :=
  (9 <= nat_of_ascii c <= 13 \/ nat_of_ascii c = 32).

Lemma IsSpace_ascii_blank (c : ascii) :
  asciiBlank c -> unicode.IsSpace (byte c) = true /\ (byte c < 128)%Z.
Proof.
  intros H. rewrite byte_nat.
  assert (Hn : nat_of_ascii c = 9 \/ nat_of_ascii c = 10 \/ nat_of_ascii c = 11 \/
               nat_of_ascii c = 12 \/ nat_of_ascii c = 13 \/ nat_of_ascii c = 32)
    by lia.
  destruct Hn as [-> | [-> | [-> | [-> | [-> | ->]]]]]; split; reflexivity.
Qed.

Lemma IsSpace_ascii_other (c : ascii) :
  nat_of_ascii c < 128 -> ~ asciiBlank c -> unicode.IsSpace (byte c) = false.
Proof.
  intros H Hn. rewrite byte_nat.
  unfold unicode.IsSpace, unicode.MaxLatin1.
  assert (Hguard : ((0 <=? Z.of_nat (nat_of_ascii c))%Z
                    && (Z.of_nat (nat_of_ascii c) <=? 255)%Z)%bool = true)
    by (apply andb_true_iff; split; apply Z.leb_le; lia).
  rewrite Hguard.
  repeat match goal with
         | |- context [(?a <=? ?b)%Z] => destruct (Z.leb_spec a b)
         | |- context [(?a =? ?b)%Z] => destruct (Z.eqb_spec a b)
         end; cbn; try reflexivity; lia.
Qed.

Lemma trimLeftLoop_step (fuel : nat) (f : Z -> bool) (s : string) :
  s <> "" ->
  strings.trimLeftLoop (S fuel) f s =
  let '(r, width) := utf8.DecodeRuneInString s in
  if f r then strings.trimLeftLoop fuel f (drop width s) else s.
Proof. destruct s; [intros H; now elim H | reflexivity]. Qed.

(** Leading blanks of ASCII go, up to the first byte of ASCII that is not
    one. *)
Lemma TrimLeftFunc_ascii (blanks : string) (c : ascii) (rest : string) :
  (forall b, In b (list_ascii_of_string blanks) -> asciiBlank b) ->
  nat_of_ascii c < 128 -> ~ asciiBlank c ->
  strings.TrimLeftFunc (blanks ++ String c rest) unicode.IsSpace = String c rest.
Proof.
  intros Hb Hc Hn. unfold strings.TrimLeftFunc.
  rewrite length_append. cbn [String.length].
  induction blanks as [|b blanks IH].
  - cbn [append String.length Nat.add]. rewrite trimLeftLoop_step by discriminate.
    rewrite Decode_ascii by (rewrite byte_nat; lia).
    now rewrite IsSpace_ascii_other.
  - cbn [append String.length Nat.add]. rewrite trimLeftLoop_step by discriminate.
    destruct (IsSpace_ascii_blank b) as [Hsp Hlt]; [apply Hb; now left|].
    rewrite Decode_ascii by exact Hlt. rewrite Hsp. cbn [drop].
    apply IH. intros b' Hin. apply Hb. now right.
Qed.

(** Trailing blanks of ASCII are walked over... *)
Lemma lastIndexLoop_blanks (word blanks : string) (n : nat) :
  (forall b, In b (list_ascii_of_string blanks) -> asciiBlank b) ->
  n <= String.length blanks ->
  forall fuel,
  strings.lastIndexLoop (n + fuel) unicode.IsSpace false (word ++ blanks)
                        (String.length word + n)
  = strings.lastIndexLoop fuel unicode.IsSpace false (word ++ blanks)
                          (String.length word).
Proof.
  intros Hb. induction n as [|n IH]; intros Hn fuel.
  - now rewrite Nat.add_0_r.
  - rewrite Nat.add_succ_r. cbn [Nat.add strings.lastIndexLoop].
    rewrite <- Nat.add_succ_r, substring_prefix_app.
    destruct (substring_snoc blanks n) as [b [Hin Hs]]; [lia|].
    rewrite Hs, <- append_assoc.
    destruct (IsSpace_ascii_blank b (Hb b Hin)) as [Hsp Hlt].
    rewrite DecodeLast_ascii by exact Hlt. rewrite Hsp. cbn [Bool.eqb].
    replace (String.length word + S n - 1) with (String.length word + n) by lia.
    apply IH. lia.
Qed.

(** ... up to the last byte of ASCII that is not one. *)
Lemma TrimRightFunc_ascii (front : string) (c : ascii) (blanks : string) :
  (forall b, In b (list_ascii_of_string blanks) -> asciiBlank b) ->
  nat_of_ascii c < 128 -> ~ asciiBlank c ->
  strings.TrimRightFunc ((front ++ String c "") ++ blanks) unicode.IsSpace
  = front ++ String c "".
Proof.
  intros Hb Hc Hn.
  assert (Hlt : (byte c < 128)%Z) by (rewrite byte_nat; lia).
  assert (Hidx : strings.lastIndexFunc ((front ++ String c "") ++ blanks)
                   unicode.IsSpace false = Some (String.length front)).
  { unfold strings.lastIndexFunc.
    rewrite (length_append (front ++ String c "") blanks).
    rewrite (Nat.add_comm (String.length (front ++ String c "")) (String.length blanks)) at 1.
    rewrite lastIndexLoop_blanks by (auto; lia).
    rewrite length_append. cbn [String.length].
    replace (String.length front + 1) with (S (String.length front)) by lia.
    cbn [strings.lastIndexLoop].
    replace (S (String.length front)) with (String.length (front ++ String c "") + 0)
      by (rewrite length_append; cbn [String.length]; lia).
    rewrite substring_prefix_app. cbn [substring].
    assert (E : substring 0 0 blanks = "") by now destruct blanks.
    rewrite E, append_empty_r, DecodeLast_ascii by exact Hlt.
    rewrite IsSpace_ascii_other by assumption. cbn [Bool.eqb].
    f_equal. rewrite length_append. cbn [String.length]. lia. }
  unfold strings.TrimRightFunc. rewrite Hidx.
  unfold byteAt. rewrite append_assoc. cbn [append]. rewrite get_app_last.
  assert (Hself : (utf8.RuneSelf <=? byte c)%Z = false)
    by (apply Z.leb_gt; exact Hlt).
  rewrite Hself, substring_prefix_app. cbn [substring].
  now destruct blanks.
Qed.

(** An ASCII word between blanks of ASCII is what [TrimSpace] keeps. *)
Lemma TrimSpace_ascii (before word after : string) :
  (forall b, In b (list_ascii_of_string before) -> asciiBlank b) ->
  (forall b, In b (list_ascii_of_string after) -> asciiBlank b) ->
  (forall c, In c (list_ascii_of_string word) -> nat_of_ascii c < 128) ->
  word <> "" ->
  (forall c rest, word = String c rest -> ~ asciiBlank c) ->
  (forall front c, word = front ++ String c "" -> ~ asciiBlank c) ->
  strings.TrimSpace (before ++ word ++ after) = word.
Proof.
  intros Hb Ha Hw Hne Hfirst Hlast.
  unfold strings.TrimSpace, strings.TrimFunc.
  destruct word as [|c0 rest0] eqn:E; [now elim Hne|].
  cbn [append]. rewrite TrimLeftFunc_ascii;
    [| exact Hb | apply Hw; now left | now apply (Hfirst c0 rest0)].
  change (String c0 (rest0 ++ after)) with (String c0 rest0 ++ after).
  destruct (string_last (String c0 rest0)) as [front [c Hfc]]; [discriminate|].
  rewrite Hfc. apply TrimRightFunc_ascii; [exact Ha | | now apply (Hlast front c)].
  apply Hw. rewrite Hfc.
  clear. induction front as [|d front IH]; simpl; [now left | now right].
Qed.

(** The white space of Unicode, rune by rune: each is what [IsSpace]
    accepts, and is read back from its encoding. *)
Lemma space_rune (r : Z) :
  In r [9; 10; 11; 12; 13; 32; 133; 160; 5760; 8192; 8193; 8194; 8195; 8196;
        8197; 8198; 8199; 8200; 8201; 8202; 8232; 8233; 8239; 8287; 12288]%Z ->
  unicode.IsSpace r = true /\
  exists c enc w,
    utf8.EncodeRune r = String c enc /\
    forall rest,
      utf8.DecodeRuneInString (utf8.EncodeRune r ++ rest) = (r, w) /\
      drop w (utf8.EncodeRune r ++ rest) = rest.
Proof.
  intros H. cbn [In] in H.
  repeat (destruct H as [<- | H];
          [split; [reflexivity|]; eexists _, _, _; split; [reflexivity|];
           intros rest; split; reflexivity|]).
  contradiction.
Qed.

(** A line of white space only trims to nothing. *)
Lemma TrimSpace_blank (runes : list Z) :
  (forall r, In r runes ->
     In r [9; 10; 11; 12; 13; 32; 133; 160; 5760; 8192; 8193; 8194; 8195; 8196;
           8197; 8198; 8199; 8200; 8201; 8202; 8232; 8233; 8239; 8287; 12288]%Z) ->
  strings.TrimSpace (stringOfRunes runes) = "".
Proof.
  intros H.
  assert (Hleft : forall fuel, List.length runes <= fuel ->
            strings.trimLeftLoop fuel unicode.IsSpace (stringOfRunes runes) = "").
  { induction runes as [|r runes IH]; intros fuel Hfuel.
    - now destruct fuel.
    - destruct fuel as [|fuel]; [simpl in Hfuel; lia|].
      destruct (space_rune r) as [Hsp [c [enc [w [Henc Hdec]]]]]; [apply H; now left|].
      cbn [stringOfRunes].
      rewrite trimLeftLoop_step by (rewrite Henc; discriminate).
      destruct (Hdec (stringOfRunes runes)) as [-> ->]. rewrite Hsp.
      apply IH; [intros r' Hin; apply H; now right | simpl in Hfuel; lia]. }
  assert (Hlen : List.length runes <= String.length (stringOfRunes runes)).
  { clear Hleft. induction runes as [|r runes IH]; [reflexivity|].
    destruct (space_rune r) as [_ [c [enc [w [Henc _]]]]]; [apply H; now left|].
    cbn [stringOfRunes List.length]. rewrite length_append, Henc.
    cbn [String.length].
    assert (List.length runes <= String.length (stringOfRunes runes))
      by (apply IH; intros r' Hin; apply H; now right).
    lia. }
  unfold strings.TrimSpace, strings.TrimFunc, strings.TrimLeftFunc.
  now rewrite Hleft.
Qed.

End SpaceFacts.

(** ** Lower case *)

Lemma isASCII_bytes (s : string) :
  (forall c, In c (list_ascii_of_string s) -> (nat_of_ascii c < 128)%nat) ->
  strings.isASCII s = true.
Proof.
  induction s as [|c s IH]; intros H; [reflexivity|].
  cbn [strings.isASCII]. rewrite IH by (intros c' Hin; apply H; now right).
  assert (Hc : (nat_of_ascii c < 128)%nat) by (apply H; now left).
  rewrite byte_nat. unfold utf8.RuneSelf.
  assert (Hlt : (Z.of_nat (nat_of_ascii c) <? 128) = true) by (apply Z.ltb_lt; lia).
  now rewrite Hlt.
Qed.

(** On a string without bytes above 0x7f, the whole function is its loop
    over the bytes, whatever the case tables. *)
Lemma ToLowerUTF8_ascii (caseTable : Z -> Z) (s : string) :
  strings.isASCII s = true -> strings.ToLowerUTF8 caseTable s = strings.ToLower s.
Proof. intros H. unfold strings.ToLowerUTF8. now rewrite H. Qed.

(** Byte by byte, [A]-[Z] move to [a]-[z] and nothing else changes. *)
Lemma get_ToLower (s : string) (i : nat) (c : ascii) :
  String.get i s = Some c ->
  String.get i (strings.ToLower s) =
  Some (if ((65 <=? nat_of_ascii c) && (nat_of_ascii c <=? 90))%nat
        then ascii_of_nat (nat_of_ascii c + 32) else c).
Proof.
  revert i; induction s as [|d s IH]; intros i H; [discriminate|].
  destruct i as [|i]; cbn [String.get strings.ToLower] in *.
  - injection H as ->. reflexivity.
  - now apply IH.
Qed.

(** ** The dispatcher *)

(** The reading loop over any resolver pool that is not empty: it does not
    panic; the domains of the jobs are the normalized lines that are not
    empty, in order; job number [i] goes to the resolver of draw [k + i]. *)
Lemma dispatch_jobs (caseTable : Z -> Z) (config : Config) (rnd : nat -> nat)
    (lines : list string) :
  resolvers config <> [] ->
  forall k : nat,
  exists jobs,
    dispatch caseTable config rnd k lines = Some jobs /\
    map domain jobs =
      filter (fun d => negb (String.eqb d ""))
             (map (fun line => strings.ToLowerUTF8 caseTable (strings.TrimSpace line))
                  lines) /\
    (forall i j, nth_error jobs i = Some j ->
       nth_error (resolvers config)
                 (rnd (k + i)%nat mod List.length (resolvers config))%nat
         = Some (server j)).
Proof.
  intros Hpool.
  assert (Hlen : List.length (resolvers config) <> O)
    by (destruct (resolvers config); [congruence | discriminate]).
  induction lines as [|line lines IH]; intros k.
  - exists []. repeat split. intros [|i] j H; discriminate.
  - cbn [dispatch map filter].
    destruct (String.eqb (strings.ToLowerUTF8 caseTable (strings.TrimSpace line)) "")
      eqn:E; cbn [negb].
    + apply IH.
    + unfold Intn. apply Nat.eqb_neq in Hlen. rewrite Hlen.
      apply Nat.eqb_neq in Hlen.
      destruct (nth_error (resolvers config)
                  (rnd k mod List.length (resolvers config))%nat) as [srv|] eqn:Hsrv.
      * destruct (IH (S k)) as [jobs [Hrun [Hdom Hsrvs]]].
        rewrite Hrun. cbn [option_map].
        eexists. split; [reflexivity|]. split.
        -- cbn [map domain]. now rewrite Hdom.
        -- intros [|i] j Hj; cbn [nth_error] in Hj.
           ++ injection Hj as <-. cbn [server]. now rewrite Nat.add_0_r.
           ++ replace (k + S i)%nat with (S k + i)%nat by lia. now apply Hsrvs.
      * apply nth_error_None in Hsrv.
        pose proof (Nat.mod_upper_bound (rnd k) _ Hlen). lia.
Qed.

(** With workers, and channels that can be made, [main] sends what its
    reading loop sends. *)
Lemma mainJobs_sends (caseTable : Z -> Z) (flags : Config) (rnd : nat -> nat)
    (lines : list string) (jobs : list job) :
  0 < concurrency flags ->
  concurrency flags * 2 <= max_int ->
  dispatch caseTable (mainConfig flags) rnd 0 lines = Some jobs ->
  mainJobs caseTable flags rnd lines = Sends jobs.
Proof.
  intros Hpos Hmax Hrun. unfold mainJobs. cbv zeta. cbn [concurrency mainConfig].
  rewrite wrap64_small by (unfold min_int, max_int in *; lia).
  unfold makeChan.
  assert (H2 : (concurrency flags * 2 <? 0) = false) by (apply Z.ltb_ge; lia).
  assert (H1 : (concurrency flags <? 0) = false) by (apply Z.ltb_ge; lia).
  assert (H0 : (concurrency flags <=? 0) = false) by (apply Z.leb_gt; lia).
  change (mkConfig (concurrency flags) (timeout flags) (verbose flags)
            defaultResolvers (retries flags)) with (mainConfig flags).
  rewrite H2, H1, Hrun, H0. now destruct jobs.
Qed.

(** What [main] sent is what its reading loop sent. *)
Lemma mainJobs_sent (caseTable : Z -> Z) (flags : Config) (rnd : nat -> nat)
    (lines : list string) (jobs : list job) :
  mainJobs caseTable flags rnd lines = Sends jobs ->
  dispatch caseTable (mainConfig flags) rnd 0 lines = Some jobs.
Proof.
  unfold mainJobs. cbv zeta.
  destruct (makeChan _); [|discriminate].
  destruct (makeChan _); [|discriminate].
  destruct (dispatch caseTable (mainConfig flags) rnd 0 lines) as [[|j rest]|];
    [| |discriminate].
  - now intros [= <-].
  - destruct (concurrency (mainConfig flags) <=? 0); [discriminate|].
    now intros [= <-].
Qed.

(** C4: with a pool of workers ([0 < concurrency], and [concurrency * 2] an
    [int]), for every sequence of input lines and every case table the
    dispatcher trims and lowercases each line and sends exactly one job for
    every line that is not empty after that, in order, with the normalized
    line as its domain and a server of the resolver pool, and no job for a
    line that becomes empty.  Normalizing means: a line made of white space
    of Unicode only gives no job; an ASCII word between blanks of ASCII
    gives a job whose domain is the word with [A]-[Z] moved to [a]-[z]. *)
Theorem mainJobs_one_job_per_nonblank_line
    (caseTable : Z -> Z) (flags : Config) (rnd : nat -> nat) (lines : list string) :
  0 < concurrency flags ->
  concurrency flags * 2 <= max_int ->
  exists jobs,
    mainJobs caseTable flags rnd lines = Sends jobs /\
    map domain jobs =
      filter (fun d => negb (String.eqb d ""))
             (map (fun line => strings.ToLowerUTF8 caseTable (strings.TrimSpace line))
                  lines) /\
    Forall (fun j => domain j <> "" /\ In (server j) defaultResolvers) jobs /\
    (forall i j, nth_error jobs i = Some j ->
       nth_error defaultResolvers (rnd i mod 8)%nat = Some (server j)) /\
    ((forall line, In line lines ->
        exists runes,
          line = stringOfRunes runes /\
          forall r, In r runes ->
            In r [9; 10; 11; 12; 13; 32; 133; 160; 5760; 8192; 8193; 8194; 8195;
                  8196; 8197; 8198; 8199; 8200; 8201; 8202; 8232; 8233; 8239;
                  8287; 12288]) ->
     jobs = []) /\
    (forall line before word after,
       In line lines ->
       line = before ++ word ++ after ->
       (forall b, In b (list_ascii_of_string before) ->
          (9 <= nat_of_ascii b <= 13 \/ nat_of_ascii b = 32)%nat) ->
       (forall b, In b (list_ascii_of_string after) ->
          (9 <= nat_of_ascii b <= 13 \/ nat_of_ascii b = 32)%nat) ->
       (forall c, In c (list_ascii_of_string word) -> (nat_of_ascii c < 128)%nat) ->
       word <> "" ->
       (forall c rest, word = String c rest ->
          ~ (9 <= nat_of_ascii c <= 13 \/ nat_of_ascii c = 32)%nat) ->
       (forall front c, word = front ++ String c "" ->
          ~ (9 <= nat_of_ascii c <= 13 \/ nat_of_ascii c = 32)%nat) ->
       exists j,
         In j jobs /\
         String.length (domain j) = String.length word /\
         forall i c, String.get i word = Some c ->
           String.get i (domain j) =
           Some (if ((65 <=? nat_of_ascii c) && (nat_of_ascii c <=? 90))%nat
                 then ascii_of_nat (nat_of_ascii c + 32) else c)).
Proof.
  intros Hpos Hmax.
  destruct (dispatch_jobs caseTable (mainConfig flags) rnd lines) with (k := O)
    as [jobs [Hrun [Hdom Hsrv]]]; [discriminate|].
  exists jobs. split; [now apply mainJobs_sends|]. split; [exact Hdom|].
  assert (Hpool : forall i j, nth_error jobs i = Some j ->
            nth_error defaultResolvers (rnd i mod 8)%nat = Some (server j))
    by (intros i j Hj; exact (Hsrv i j Hj)).
  split; [|split; [exact Hpool | split]].
  - apply Forall_forall. intros j Hin. split.
    + assert (Hd : In (domain j) (map domain jobs)) by now apply in_map.
      rewrite Hdom in Hd. apply filter_In in Hd. destruct Hd as [_ Hd].
      intros E. rewrite E in Hd. discriminate.
    + destruct (In_nth_error _ _ Hin) as [i Hi].
      apply nth_error_In with (1 := Hpool i j Hi).
  - intros Hblank.
    assert (E : map domain jobs = []).
    { rewrite Hdom. clear Hrun Hdom Hsrv Hpool.
      induction lines as [|line lines IH]; [reflexivity|].
      cbn [map filter].
      destruct (Hblank line) as [runes [-> Hrunes]]; [now left|].
      rewrite TrimSpace_blank by exact Hrunes.
      cbn. apply IH. intros l Hl. apply Hblank. now right. }
    now destruct jobs.
  - intros line before word after Hin -> Hb Ha Hw Hne Hfirst Hlast.
    assert (Hnorm : strings.ToLowerUTF8 caseTable
                      (strings.TrimSpace (before ++ word ++ after))
                    = strings.ToLower word).
    { rewrite TrimSpace_ascii by assumption.
      unfold strings.ToLowerUTF8. now rewrite isASCII_bytes. }
    assert (Hd : In (strings.ToLower word) (map domain jobs)).
    { rewrite Hdom. apply filter_In. split.
      - rewrite <- Hnorm. now apply in_map with (f := fun line =>
          strings.ToLowerUTF8 caseTable (strings.TrimSpace line)).
      - destruct word; [now elim Hne | reflexivity]. }
    apply in_map_iff in Hd. destruct Hd as [j [Hj Hinj]].
    exists j. rewrite Hj. split; [exact Hinj|]. split; [apply ToLower_length|].
    intros i c. apply get_ToLower.
Qed.

Lemma mainJobs_one_job_per_nonblank_line_witness :
  exists jobs,
    mainJobs (fun r => r) defaultConfig (fun k => (k * 3 + 9)%nat)
      [nbsp; "  WWW.Example.com "; "   "; ""; "b.org"] = Sends jobs /\
    map domain jobs = ["www.example.com"; "b.org"].
Proof.
  destruct (mainJobs_one_job_per_nonblank_line (fun r => r) defaultConfig
              (fun k => (k * 3 + 9)%nat)
              [nbsp; "  WWW.Example.com "; "   "; ""; "b.org"])
    as [jobs [Hrun [Hdom _]]].
  - reflexivity.
  - vm_compute. discriminate.
  - exists jobs. split; [exact Hrun | exact Hdom].
Defined.

(** * Further properties of the code *)

(** ** The shape of a run of the resolver *)

Section RetryShape.

Variable config : Config.
Variable env : Env.
Variables domain server : string.

Local Abbreviation qname := (fqdn domain).
Local Abbreviation address := (server ++ ":53").
Local Abbreviation failures k n :=
  (flat_map (fun j : nat =>
     EvExchange qname address ::
     (if Z.of_nat j <? retries config
      then [EvSleep (time.mul (time.mul time.Millisecond 100) (Z.of_nat j + 1))]
      else [])) (seq k n)).

(** A run of the loop that returns is some number [n] of failed attempts,
    then either an attempt that succeeds or the end of the attempts the
    configuration allows. *)
Lemma retryLoop_shape (fuel : nat) :
  forall (k : nat) (lastErr : option error) (t : nat)
         (evs : list Event) (answer : string * option error) (t' : nat),
  retries config < max_int ->
  retryLoop config env fuel domain server (Z.of_nat k) lastErr t
    = (evs, Some (answer, t')) ->
  exists n : nat,
    (evs = (failures k n ++ [EvExchange qname address])%list /\
     Z.of_nat (k + n) <= retries config /\
     t' = S (t + n) /\
     exists r, exchange env (t + n)%nat qname address = inr r /\ answer = interpret r)
    \/
    (evs = failures k n /\
     retries config < Z.of_nat (k + n) /\
     (n <> O -> Z.of_nat (k + n) = retries config + 1) /\
     t' = (t + n)%nat /\
     fst answer = "").
Proof.
  induction fuel as [|fuel IH]; intros k lastErr t evs answer t' Hmax H;
    [discriminate|].
  rewrite retryLoop_step in H.
  destruct (Z.of_nat k <=? retries config) eqn:Hle.
  - apply Z.leb_le in Hle.
    destruct (exchange env t qname address) as [e|r] eqn:Hex; cbn [answerOf] in H.
    + rewrite int_add_succ in H by lia.
      destruct (retryLoop config env fuel domain server (Z.of_nat (S k))
                  (Some (Errorf_w "DNS query failed: " e)) (S t))
        as [evs' r'] eqn:E.
      injection H as <- ->.
      destruct (IH _ _ _ _ _ _ Hmax E) as [n [[Hevs [Hn [Ht Hr]]] | [Hevs [Hn [Hn' [Ht Hans]]]]]];
        exists (S n); [left | right]; subst evs'.
      * split; [|split; [lia | split; [lia|]]].
        -- cbn [seq flat_map]. rewrite <- ?app_assoc.
           change (Z.pos (Pos.of_succ_nat k)) with (Z.of_nat (S k)).
           replace (Z.of_nat (S k)) with (Z.of_nat k + 1) by lia. reflexivity.
        -- destruct Hr as [r Hr]. exists r.
           now replace (t + S n)%nat with (S t + n)%nat by lia.
      * split; [|split; [lia | split; [intros _; lia | split; [lia | exact Hans]]]].
        cbn [seq flat_map]. rewrite <- ?app_assoc.
        change (Z.pos (Pos.of_succ_nat k)) with (Z.of_nat (S k)).
        replace (Z.of_nat (S k)) with (Z.of_nat k + 1) by lia. reflexivity.
    + pose proof (interpret_no_error r) as Hnone.
      destruct (interpret r) as [cname err] eqn:Hint. cbn [snd] in Hnone. subst err.
      injection H as <- <- <-.
      exists O. left. rewrite !Nat.add_0_r. repeat split; [lia|].
      exists r. now rewrite Hint.
  - apply Z.leb_gt in Hle. injection H as <- <- <-.
    exists O. right. rewrite !Nat.add_0_r. repeat split; [lia | congruence].
Qed.

(** The same, for the resolver. *)
Lemma getCNAMEWithRetry_shape (t : nat) :
  0 <= retries config < max_int ->
  exists (n : nat) (answer : string * option error),
    (getCNAMEWithRetry config env domain server t
       = ((failures 0 n ++ [EvExchange qname address])%list, Some (answer, S (t + n))) /\
     Z.of_nat n <= retries config /\
     exists r, exchange env (t + n)%nat qname address = inr r /\ answer = interpret r)
    \/
    (getCNAMEWithRetry config env domain server t
       = (failures 0 n, Some (answer, (t + n)%nat)) /\
     Z.of_nat n = retries config + 1 /\
     fst answer = "").
Proof.
  intros Hr.
  destruct (getCNAMEWithRetry_returns config env domain server t)
    as [evs [answer [t' Hrun]]]; [lia|].
  pose proof Hrun as Hrun'. unfold getCNAMEWithRetry in Hrun'.
  change 0 with (Z.of_nat 0) in Hrun'.
  apply retryLoop_shape in Hrun'; [|lia].
  destruct Hrun' as [n [[Hevs [Hn [Ht Hex]]] | [Hevs [Hn [Hn' [Ht Hans]]]]]];
    exists n, answer; [left | right]; subst evs t'.
  - split; [exact Hrun | split; [lia | exact Hex]].
  - split; [exact Hrun | split; [|exact Hans]].
    apply Hn'. intros ->. simpl in Hn. lia.
Qed.

(** Whatever the network does, a run of the loop consists of queries for
    the one absolute name to the one server, and of sleeps. *)
Lemma retryLoop_events (fuel : nat) :
  forall (i : Z) (lastErr : option error) (t : nat),
  Forall (fun ev => ev = EvExchange qname address \/ exists d, ev = EvSleep d)
         (fst (retryLoop config env fuel domain server i lastErr t)).
Proof.
  induction fuel as [|fuel IH]; intros i lastErr t; [constructor|].
  rewrite retryLoop_step.
  destruct (i <=? retries config); [|constructor].
  destruct (answerOf _) as [cname [e|]].
  - specialize (IH (int_add i 1) (Some e) (S t)).
    destruct (retryLoop config env fuel domain server (int_add i 1) (Some e) (S t))
      as [evs r].
    cbn [fst] in *. constructor; [now left|].
    apply Forall_app. split; [|exact IH].
    destruct (i <? retries config); constructor; [right; eauto | constructor].
  - cbn [fst]. constructor; [now left | constructor].
Qed.

End RetryShape.

Lemma wrap64_range (z : Z) : min_int <= wrap64 z <= max_int.
Proof.
  unfold wrap64, min_int, max_int.
  pose proof (Z.mod_pos_bound (z + 2 ^ 63) (2 ^ 64)). lia.
Qed.

(** The sum of the first [m] multiples of 100ms from the [s]-th, doubled. *)
Lemma sum_backoffs (m s : nat) :
  2 * fold_right Z.add 0 (map (fun i : nat => 100000000 * Z.of_nat i) (seq s m))
  = 100000000 * Z.of_nat m * (2 * Z.of_nat s + Z.of_nat m - 1).
Proof.
  revert s; induction m as [|m IH]; intros s; [reflexivity|].
  cbn [seq map fold_right]. rewrite Z.mul_add_distr_l, IH, !Nat2Z.inj_succ. ring.
Qed.

(** The delays of any run that returns: one after each attempt but the
    last, in Duration arithmetic 100ms times the number of the attempt. *)
Lemma getCNAMEWithRetry_delays
    (config : Config) (env : Env) (domain server : string) (t : nat) :
  0 <= retries config < max_int ->
  exists evs answer t',
    getCNAMEWithRetry config env domain server t = (evs, Some (answer, t')) /\
    (1 <= attempts evs)%nat /\
    Z.of_nat (attempts evs) <= retries config + 1 /\
    t' = (t + attempts evs)%nat /\
    delays evs =
      map (fun i : nat => time.mul (time.mul time.Millisecond 100) (Z.of_nat i))
          (seq 1 (attempts evs - 1)).
Proof.
  intros Hr.
  destruct (getCNAMEWithRetry_shape config env domain server t Hr)
    as [n [answer [[Hrun [Hn _]] | [Hrun [Hn _]]]]];
    rewrite Hrun; eexists _, _, _; (split; [reflexivity|]).
  - rewrite attempts_app, attempts_failures, delays_app, delays_failures_inner
      by (simpl; lia).
    cbn [attempts delays]. rewrite app_nil_r.
    replace (n + 1 - 1)%nat with n by lia. repeat split; lia.
  - rewrite attempts_failures.
    destruct n as [|r]; [lia|].
    rewrite delays_failures_all by lia.
    replace (S r - 1)%nat with r by lia. repeat split; lia.
Qed.

(** X1: whatever the network answers, a run of the resolver with
    [0 <= retries < 2^63 - 1] returns after at least one and at most
    [retries + 1] queries, has asked the network exactly once per query, and
    has slept exactly once between two consecutive queries: one sleep less
    than queries. *)
Theorem getCNAMEWithRetry_attempt_bounds
    (config : Config) (env : Env) (domain server : string) (t : nat) :
  0 <= retries config < max_int ->
  exists evs answer t',
    getCNAMEWithRetry config env domain server t = (evs, Some (answer, t')) /\
    (1 <= attempts evs)%nat /\
    Z.of_nat (attempts evs) <= retries config + 1 /\
    t' = (t + attempts evs)%nat /\
    List.length (delays evs) = (attempts evs - 1)%nat.
Proof.
  intros Hr.
  destruct (getCNAMEWithRetry_delays config env domain server t Hr)
    as [evs [answer [t' [Hrun [H1 [H2 [H3 Hd]]]]]]].
  exists evs, answer, t'. repeat split; try assumption.
  now rewrite Hd, length_map, length_seq.
Qed.

Lemma getCNAMEWithRetry_attempt_bounds_witness :
  exists evs answer t',
    getCNAMEWithRetry defaultConfig sampleEnv "abandoned.example.com" "1.1.1.1" 0%nat
      = (evs, Some (answer, t')) /\
    (1 <= attempts evs)%nat /\
    Z.of_nat (attempts evs) <= 2 + 1 /\
    t' = (0 + attempts evs)%nat /\
    List.length (delays evs) = (attempts evs - 1)%nat.
Proof.
  apply (getCNAMEWithRetry_attempt_bounds defaultConfig sampleEnv
           "abandoned.example.com" "1.1.1.1" 0%nat).
  simpl. unfold max_int. lia.
Defined.

(** X2: for [0 <= retries <= 92233720368] the backoff of any run is linear:
    the delay after attempt number [i] is [i] times 100,000,000ns; a run of
    [a] attempts sleeps 50,000,000ns times [(a - 1) * a] in all, at most
    50,000,000ns times [retries * (retries + 1)]. *)
Theorem getCNAMEWithRetry_linear_backoff
    (config : Config) (env : Env) (domain server : string) (t : nat) :
  0 <= retries config <= 92233720368 ->
  let evs := events (getCNAMEWithRetry config env domain server) t in
  let m := (attempts evs - 1)%nat in
  delays evs = map (fun i : nat => 100000000 * Z.of_nat i) (seq 1 m) /\
  totalDelay evs = 50000000 * Z.of_nat m * (Z.of_nat m + 1) /\
  totalDelay evs <= 50000000 * retries config * (retries config + 1).
Proof.
  intros Hr evs m.
  destruct (getCNAMEWithRetry_delays config env domain server t)
    as [evs' [answer [t' [Hrun [H1 [H2 [_ Hd]]]]]]]; [unfold max_int; lia|].
  assert (Hevs : evs = evs') by (unfold evs, events; now rewrite Hrun).
  subst evs'. fold m in Hd.
  assert (Hlin : delays evs = map (fun i : nat => 100000000 * Z.of_nat i) (seq 1 m)).
  { rewrite Hd. apply map_ext_in. intros i Hi. apply in_seq in Hi.
    apply backoff_exact. lia. }
  assert (Hsum : totalDelay evs = 50000000 * Z.of_nat m * (Z.of_nat m + 1)).
  { unfold totalDelay. rewrite Hlin.
    pose proof (sum_backoffs m 1) as Hs.
    change (Z.of_nat 1) with 1 in Hs. lia. }
  split; [exact Hlin|]. split; [exact Hsum|].
  rewrite Hsum. assert (Hm : 0 <= Z.of_nat m <= retries config) by lia. nia.
Qed.

Lemma getCNAMEWithRetry_linear_backoff_witness :
  delays (events (getCNAMEWithRetry defaultConfig failingEnv "broken.example.com"
                    "8.8.8.8") 0%nat) = [100000000; 200000000] /\
  totalDelay (events (getCNAMEWithRetry defaultConfig failingEnv "broken.example.com"
                        "8.8.8.8") 0%nat) = 300000000.
Proof.
  destruct (getCNAMEWithRetry_linear_backoff defaultConfig failingEnv
              "broken.example.com" "8.8.8.8" 0%nat) as [Hd [Hs _]].
  - simpl. lia.
  - split; [exact Hd | exact Hs].
Defined.

(** X3: a run of the resolver, whatever the network does and whatever the
    configuration, sends every query for the same absolute name to the same
    server on port 53, and does nothing else but sleep: it never changes
    resolver between attempts, never looks a host up, never writes a line. *)
Theorem getCNAMEWithRetry_same_query_every_attempt
    (config : Config) (env : Env) (domain server : string) (t : nat) :
  Forall (fun ev => ev = EvExchange (fqdn domain) (server ++ ":53") \/
                    exists d, ev = EvSleep d)
         (events (getCNAMEWithRetry config env domain server) t).
Proof. apply retryLoop_events. Qed.

(** At the largest [int] the condition [i <= retries] holds for every value
    of the counter, which wraps from the largest [int] to the smallest. *)
Lemma retryLoop_max_int_no_exit
    (config : Config) (env : Env) (domain server : string) (fuel : nat) :
  retries config = max_int ->
  (forall k q a, exists e, exchange env k q a = inl e) ->
  forall (i : Z) (lastErr : option error) (t : nat),
  min_int <= i <= max_int ->
  snd (retryLoop config env fuel domain server i lastErr t) = None.
Proof.
  intros Hr Hfail.
  induction fuel as [|fuel IH]; intros i lastErr t Hi; [reflexivity|].
  rewrite retryLoop_step.
  assert (Hle : (i <=? retries config) = true) by (apply Z.leb_le; lia).
  rewrite Hle.
  destruct (Hfail t (fqdn domain) (server ++ ":53")) as [e He].
  rewrite He. cbn [answerOf].
  specialize (IH (int_add i 1) (Some (Errorf_w "DNS query failed: " e)) (S t)
                 (wrap64_range (i + 1))).
  destruct (retryLoop config env fuel domain server (int_add i 1)
              (Some (Errorf_w "DNS query failed: " e)) (S t)) as [evs r].
  exact IH.
Qed.

(** X4: with [retries] set to the largest [int], 9223372036854775807, and a
    resolver that fails every query, the resolver never returns: the loop
    goes on for any number of turns. *)
Theorem getCNAMEWithRetry_max_int_never_returns
    (config : Config) (env : Env) (domain server : string) (t : nat) :
  retries config = max_int ->
  (forall k q a, exists e, exchange env k q a = inl e) ->
  snd (getCNAMEWithRetry config env domain server t) = None /\
  forall fuel, snd (retryLoop config env fuel domain server 0 None t) = None.
Proof.
  intros Hr Hfail.
  assert (H0 : min_int <= 0 <= max_int) by (unfold min_int, max_int; lia).
  split; [|intros fuel]; now apply retryLoop_max_int_no_exit.
Qed.

Lemma getCNAMEWithRetry_max_int_never_returns_witness :
  snd (getCNAMEWithRetry maxRetriesConfig failingEnv "broken.example.com" "8.8.8.8" 0%nat)
    = None.
Proof.
  apply (getCNAMEWithRetry_max_int_never_returns maxRetriesConfig failingEnv
           "broken.example.com" "8.8.8.8" 0%nat).
  - reflexivity.
  - intros k q a. exists (NetError "i/o timeout"). reflexivity.
Defined.

(** When every query fails, the delay after attempt number [i] is the
    [Duration] product of 100ms and [i], whether it fits or wraps. *)
Lemma retry_all_fail_delay
    (config : Config) (env : Env) (domain server : string) (t : nat) (i : Z) :
  0 <= retries config < max_int ->
  (forall k q a, exists e, exchange env k q a = inl e) ->
  1 <= i <= retries config ->
  nth_error (delays (events (getCNAMEWithRetry config env domain server) t))
            (Z.to_nat (i - 1))
  = Some (time.mul (time.mul time.Millisecond 100) i).
Proof.
  intros Hr Hfail Hi.
  destruct (getCNAMEWithRetry_delays config env domain server t Hr)
    as [evs [answer [t' [Hrun [_ [_ [_ Hd]]]]]]].
  destruct (Hfail (t + Z.to_nat (retries config))%nat (fqdn domain) (server ++ ":53"))
    as [e He].
  destruct (retry_all_fail config env domain server t e Hr) as [evs' [Hrun' Hn]];
    [intros j _; apply Hfail | exact He |].
  rewrite Hrun in Hrun'. apply (f_equal fst) in Hrun'. cbn [fst] in Hrun'.
  subst evs'.
  unfold events. rewrite Hrun. cbn [fst]. rewrite Hd.
  rewrite nth_error_map, nth_error_seq.
  assert (Hlt : (Z.to_nat (i - 1) <? attempts evs - 1)%nat = true)
    by (apply Nat.ltb_lt; lia).
  rewrite Hlt. cbn [option_map]. f_equal. f_equal. lia.
Qed.

(** C2, as stated, fails at the ends of the integer types.  With [retries]
    the largest [int] and every query failing, the resolver never returns:
    it does not stop after [retries + 1] attempts.  With [retries] 92233720369
    and every query failing, the delay after attempt number 92233720369 is
    not 92233720369 times 100ms: the [Duration] product wraps to a negative
    value. *)
Lemma getCNAMEWithRetry_schedule_fails_at_int_limits :
  snd (getCNAMEWithRetry maxRetriesConfig failingEnv "broken.example.com"
         "8.8.8.8" 0%nat) = None /\
  nth_error
    (delays (events (getCNAMEWithRetry wrapRetriesConfig failingEnv
                       "broken.example.com" "8.8.8.8") 0%nat))
    (Z.to_nat (92233720369 - 1))
  = Some (-9223372036809551616) /\
  -9223372036809551616 <> 100000000 * 92233720369.
Proof.
  split; [|split].
  - apply retryLoop_max_int_no_exit.
    + reflexivity.
    + intros k q a. exists (NetError "i/o timeout"). reflexivity.
    + unfold min_int, max_int. lia.
  - assert (Hwrap : time.mul (time.mul time.Millisecond 100) 92233720369
                    = -9223372036809551616) by (vm_compute; reflexivity).
    rewrite <- Hwrap.
    apply retry_all_fail_delay.
    + change (retries wrapRetriesConfig) with 92233720369. unfold max_int. lia.
    + intros k q a. exists (NetError "i/o timeout"). reflexivity.
    + change (retries wrapRetriesConfig) with 92233720369. lia.
  - lia.
Qed.

(** ** What one job leaves behind *)

Lemma lookups_app (a b : list Event) :
  lookups (a ++ b) = (lookups a + lookups b)%nat.
Proof.
  induction a as [|e a IH]; simpl; [reflexivity|].
  destruct e; simpl; now rewrite IH.
Qed.

Lemma getCNAMEWithRetry_no_lookup
    (config : Config) (env : Env) (domain server : string) (t : nat) :
  lookups (fst (getCNAMEWithRetry config env domain server t)) = O.
Proof.
  pose proof (retryLoop_events config env domain server (retryFuel config) 0 None t)
    as H.
  change (retryLoop config env (retryFuel config) domain server 0 None t)
    with (getCNAMEWithRetry config env domain server t) in H.
  induction H as [|ev evs [-> | [d ->]] _ IH]; simpl; auto.
Qed.

(** The lines, the diagnostics and the host lookups of one job, in every
    case of [processDomain]; its queries and sleeps are those of the
    resolver. *)
Lemma processDomain_outputs
    (config : Config) (env : Env) (domain server : string) (t : nat) :
  let evs := events (processDomain config env domain server) t in
  let sent := resultLines evs in
  let diag := stderrLines evs in
  attempts evs = attempts (events (getCNAMEWithRetry config env domain server) t) /\
  exists cname,
    (sent = [] /\ diag = [] /\ lookups evs = O) \/
    (sent = [] /\ (exists line, diag = [line]) /\ lookups evs = O /\
     verbose config = true) \/
    (sent = [] /\ diag = [] /\ lookups evs = 1%nat /\ verbose config = false) \/
    (sent = [render (OK domain cname)] /\ diag = [] /\ lookups evs = 1%nat /\
     verbose config = true) \/
    (sent = [render (Dangling domain cname)] /\ diag = [] /\ lookups evs = 1%nat) \/
    (exists service,
       sent = [render (Dangling domain cname); render (Takeover domain cname service)] /\
       diag = [] /\ lookups evs = 1%nat).
Proof.
  pose proof (getCNAMEWithRetry_silent config env domain server t) as [Hres Herr].
  pose proof (getCNAMEWithRetry_no_lookup config env domain server t) as Hlook.
  unfold events.
  destruct (getCNAMEWithRetry config env domain server t)
    as [evs0 [[[cname [e|]] t']|]] eqn:Hrun; cbn [fst] in *; cbv zeta.
  - rewrite (processDomain_failed config env domain server _ _ _ _ _ Hrun).
    cbn [fst].
    rewrite attempts_app, resultLines_app, stderrLines_app, lookups_app, Hres, Herr, Hlook.
    destruct (verbose config); cbn.
    + split; [lia|]. exists cname. right; left. repeat split. eauto.
    + split; [lia|]. exists cname. left. repeat split.
  - destruct (String.eqb cname "") eqn:E.
    + apply String.eqb_eq in E. subst cname.
      rewrite (processDomain_no_cname config env domain server _ _ _ Hrun).
      cbn [fst].
      rewrite attempts_app, resultLines_app, stderrLines_app, lookups_app, Hres, Herr, Hlook.
      destruct (verbose config); cbn.
      * split; [lia|]. exists "". right; left. repeat split. eauto.
      * split; [lia|]. exists "". left. repeat split.
    + apply String.eqb_neq in E.
      rewrite (processDomain_cname config env domain server _ _ _ _ E Hrun).
      cbv zeta.
      destruct (lookupHost env t' (strings.TrimSuffix cname ".")); cbn [fst];
        rewrite attempts_app, resultLines_app, stderrLines_app, lookups_app,
                Hres, Herr, Hlook.
      * destruct (verbose config) eqn:V; cbn; (split; [lia|]); exists cname.
        -- do 3 right; left. repeat split.
        -- do 2 right; left. repeat split.
      * destruct (String.eqb (checkVulnerableService (mapChoices env (S t')) cname) "");
          cbn; (split; [lia|]); exists cname.
        -- do 4 right; left. repeat split.
        -- do 5 right. eexists. repeat split.
  - rewrite (processDomain_diverges config env domain server _ _ Hrun).
    cbn [fst]. rewrite Hres, Herr, Hlook. split; [reflexivity|].
    exists "". left. repeat split.
Qed.

(** X5: one job never leaves more than two findings, one diagnostic and one
    host lookup; it never leaves both a finding and a diagnostic; every
    finding was preceded by exactly one host lookup; a diagnostic is written
    only when verbose is set; and its findings are none, one OK, one
    Dangling, or a Dangling followed by a Takeover, all of the job's domain
    and of one CNAME.  This holds for every network behaviour and every
    configuration. *)
Theorem processDomain_output_discipline
    (config : Config) (env : Env) (domain server : string) (t : nat) :
  let evs := events (processDomain config env domain server) t in
  (List.length (resultLines evs) <= 2)%nat /\
  (List.length (stderrLines evs) <= 1)%nat /\
  (lookups evs <= 1)%nat /\
  (resultLines evs <> [] -> stderrLines evs = [] /\ lookups evs = 1%nat) /\
  (stderrLines evs <> [] -> verbose config = true) /\
  (exists cname,
     resultLines evs = [] \/
     resultLines evs = [render (OK domain cname)] \/
     resultLines evs = [render (Dangling domain cname)] \/
     exists service,
       resultLines evs = [render (Dangling domain cname);
                          render (Takeover domain cname service)]).
Proof.
  intros evs.
  destruct (processDomain_outputs config env domain server t)
    as [_ [cname [H | [H | [H | [H | [H | H]]]]]]]; fold evs in H.
  - destruct H as [-> [-> ->]]. cbn.
    repeat split; try lia; try congruence. exists cname. now left.
  - destruct H as [-> [[line ->] [-> V]]]. cbn.
    repeat split; try lia; try congruence. exists cname. now left.
  - destruct H as [-> [-> [-> V]]]. cbn.
    repeat split; try lia; try congruence. exists cname. now left.
  - destruct H as [-> [-> [-> V]]]. cbn.
    repeat split; try lia; try congruence. exists cname. right. now left.
  - destruct H as [-> [-> ->]]. cbn.
    repeat split; try lia; try congruence. exists cname. do 2 right. now left.
  - destruct H as [service [-> [-> ->]]]. cbn.
    repeat split; try lia; try congruence. exists cname. do 3 right. now exists service.
Qed.

(** X6: without verbose a job writes nothing to the error stream, whatever
    happens to its queries, and every line it sends is a Dangling or a
    Takeover finding of its own domain: an OK line is never sent. *)
Theorem processDomain_quiet_without_verbose
    (config : Config) (env : Env) (domain server : string) (t : nat) :
  verbose config = false ->
  let evs := events (processDomain config env domain server) t in
  stderrLines evs = [] /\
  forall line, In line (resultLines evs) ->
    exists cname,
      line = render (Dangling domain cname) \/
      exists service, line = render (Takeover domain cname service).
Proof.
  intros V evs.
  destruct (processDomain_outputs config env domain server t)
    as [_ [cname [H | [H | [H | [H | [H | H]]]]]]]; fold evs in H.
  - destruct H as [-> [-> _]]. split; [reflexivity | intros line []].
  - destruct H as [_ [_ [_ V']]]. congruence.
  - destruct H as [-> [-> _]]. split; [reflexivity | intros line []].
  - destruct H as [_ [_ [_ V']]]. congruence.
  - destruct H as [-> [-> _]]. split; [reflexivity|].
    intros line [<- | []]. exists cname. now left.
  - destruct H as [service [-> [-> _]]]. split; [reflexivity|].
    intros line [<- | [<- | []]]; exists cname; [now left | right; now exists service].
Qed.

Lemma processDomain_quiet_without_verbose_witness :
  stderrLines (events (processDomain defaultConfig failingEnv "broken.example.com"
                         "8.8.8.8") 0%nat) = [].
Proof.
  apply (processDomain_quiet_without_verbose defaultConfig failingEnv
           "broken.example.com" "8.8.8.8" 0%nat).
  reflexivity.
Defined.

(** X7: a CNAME record whose target is the root name ["."] (or is empty)
    reads as no CNAME at all: the resolver returns the empty string on that
    answer, so the worker sends no finding for the domain and never checks
    the target, and when verbose it writes the notice of a missing CNAME. *)
Theorem processDomain_root_target_reads_as_no_cname
    (config : Config) (env : Env) (domain server : string) (t : nat)
    (r : dns.Msg) (target : string) :
  0 <= retries config <= max_int ->
  exchange env t (fqdn domain) (server ++ ":53") = inr r ->
  firstCNAME (dns.Answer r) = Some target ->
  target = "." \/ target = "" ->
  let evs := events (processDomain config env domain server) t in
  result (getCNAMEWithRetry config env domain server) t = Some ("", None) /\
  attempts evs = 1%nat /\
  lookups evs = O /\
  resultLines evs = [] /\
  stderrLines evs =
    if verbose config then ["No CNAME for " ++ domain ++ newline] else [].
Proof.
  intros Hr Hex Hfirst Htarget evs.
  destruct (retry_first_success config env domain server t O r) as [evs0 [Hrun Hn]];
    [lia | simpl; lia | intros j Hj; lia | now rewrite Nat.add_0_r |].
  assert (Hempty : fst (interpret r) = "").
  { unfold interpret. rewrite Hfirst. now destruct Htarget as [-> | ->]. }
  rewrite Hempty in Hrun.
  pose proof (getCNAMEWithRetry_silent config env domain server t) as [Hres Herr].
  pose proof (getCNAMEWithRetry_no_lookup config env domain server t) as Hlook.
  rewrite Hrun in Hres, Herr, Hlook. cbn [fst] in Hres, Herr, Hlook.
  unfold evs, events, result.
  rewrite (processDomain_no_cname config env domain server _ _ _ Hrun), Hrun.
  cbn [fst snd option_map].
  rewrite attempts_app, lookups_app, resultLines_app, stderrLines_app,
          Hn, Hres, Herr, Hlook.
  destruct (verbose config); repeat split.
Qed.

Lemma processDomain_root_target_reads_as_no_cname_witness :
  resultLines (events (processDomain defaultConfig rootEnv "alias.example.com"
                         "9.9.9.9") 0%nat) = [] /\
  lookups (events (processDomain defaultConfig rootEnv "alias.example.com"
                     "9.9.9.9") 0%nat) = O.
Proof.
  destruct (processDomain_root_target_reads_as_no_cname defaultConfig rootEnv
              "alias.example.com" "9.9.9.9" 0%nat (dns.mkMsg [dns.CNAME "."] []) ".")
    as [_ [_ [Hl [Hs _]]]].
  - simpl. unfold max_int. lia.
  - reflexivity.
  - reflexivity.
  - now left.
  - split; [exact Hs | exact Hl].
Defined.

(** ** The classifier matches anywhere *)

Lemma ToLower_append (a b : string) :
  strings.ToLower (a ++ b) = strings.ToLower a ++ strings.ToLower b.
Proof. induction a as [|c a IH]; simpl; [reflexivity | now rewrite IH]. Qed.

(** X8: a pattern of the table is looked for anywhere in the target and
    without regard to letter case: a target that holds a pattern, in any
    mix of cases, at its start, in its middle or at its end, is given a
    non-empty service name in every iteration order of the table. *)
Theorem checkVulnerableService_matches_anywhere
    (choices : list nat) (pattern service before middle after : string) :
  In (pattern, service) vulnerablePatterns ->
  strings.ToLower middle = pattern ->
  checkVulnerableService choices (before ++ middle ++ after) <> "".
Proof.
  intros Hin Hmid Hempty.
  destruct (checkVulnerableService_empty choices (before ++ middle ++ after))
    as [Hnone _].
  specialize (Hnone Hempty pattern service Hin).
  assert (Hc : strings.Contains
                 (strings.ToLower (before ++ middle ++ after)) pattern = true).
  { apply Contains_spec.
    exists (strings.ToLower before), (strings.ToLower after).
    now rewrite !ToLower_append, Hmid. }
  congruence.
Qed.

Lemma checkVulnerableService_matches_anywhere_witness :
  checkVulnerableService [3%nat] ("pages" ++ ".GitHub.IO" ++ ".attacker.example.org")
    <> "".
Proof.
  apply (checkVulnerableService_matches_anywhere [3%nat] ".github.io" "GitHub Pages").
  - do 9 right. now left.
  - reflexivity.
Defined.

(** ** One worker over its jobs *)

Lemma worker_cons (config : Config) (env : Env) (j : job) (rest : list job) (t : nat) :
  worker config env (j :: rest) t =
  match processDomain config env (domain j) (server j) t with
  | (evs, None) => (evs, None)
  | (evs, Some (_, t')) =>
      let '(evs', r) := worker config env rest t' in ((evs ++ evs')%list, r)
  end.
Proof. reflexivity. Qed.

(** The events of a job begin with those of its resolver. *)
Lemma processDomain_prefix
    (config : Config) (env : Env) (domain server : string) (t : nat) :
  exists tail,
    events (processDomain config env domain server) t =
    (events (getCNAMEWithRetry config env domain server) t ++ tail)%list.
Proof.
  unfold events.
  destruct (getCNAMEWithRetry config env domain server t)
    as [evs0 [[[cname [e|]] t']|]] eqn:Hrun; cbn [fst].
  - rewrite (processDomain_failed config env domain server _ _ _ _ _ Hrun). now eexists.
  - destruct (String.eqb cname "") eqn:E.
    + apply String.eqb_eq in E. subst cname.
      rewrite (processDomain_no_cname config env domain server _ _ _ Hrun). now eexists.
    + apply String.eqb_neq in E.
      rewrite (processDomain_cname config env domain server _ _ _ _ E Hrun). cbv zeta.
      destruct (lookupHost env t' (strings.TrimSuffix cname ".")); now eexists.
  - rewrite (processDomain_diverges config env domain server _ _ Hrun).
    exists []. now rewrite app_nil_r.
Qed.

(** Every line of a job renders a finding of the domain of the job. *)
Lemma processDomain_lines
    (config : Config) (env : Env) (domain server : string) (t : nat) (line : string) :
  In line (resultLines (events (processDomain config env domain server) t)) ->
  exists f, line = render f /\ findingDomain f = domain.
Proof.
  destruct (processDomain_outputs config env domain server t)
    as [_ [cname [H | [H | [H | [H | [H | H]]]]]]].
  - destruct H as [-> _]. intros [].
  - destruct H as [-> _]. intros [].
  - destruct H as [-> _]. intros [].
  - destruct H as [-> _]. intros [<- | []]. now exists (OK domain cname).
  - destruct H as [-> _]. intros [<- | []]. now exists (Dangling domain cname).
  - destruct H as [service [-> _]].
    intros [<- | [<- | []]];
      [now exists (Dangling domain cname) | now exists (Takeover domain cname service)].
Qed.

(** Every line of a worker renders a finding of one of its jobs. *)
Lemma worker_lines (config : Config) (env : Env) (jobs : list job) :
  forall (t : nat) (line : string),
  In line (resultLines (events (worker config env jobs) t)) ->
  exists j f, In j jobs /\ line = render f /\ findingDomain f = domain j.
Proof.
  induction jobs as [|j rest IH]; intros t line; [intros []|].
  unfold events. rewrite worker_cons.
  pose proof (processDomain_lines config env (domain j) (server j) t line) as Hjob.
  unfold events in Hjob.
  destruct (processDomain config env (domain j) (server j) t) as [evs [[u t']|]].
  - specialize (IH t' line). unfold events in IH.
    destruct (worker config env rest t') as [evs' r]. cbn [fst] in *.
    rewrite resultLines_app. intros Hin. apply in_app_or in Hin.
    destruct Hin as [Hin | Hin].
    + destruct (Hjob Hin) as [f [Hf Hd]]. exists j, f. repeat split; auto. now left.
    + destruct (IH Hin) as [j' [f [Hj' Hf]]]. exists j', f. split; [now right | exact Hf].
  - cbn [fst] in *. intros Hin.
    destruct (Hjob Hin) as [f [Hf Hd]]. exists j, f. repeat split; auto. now left.
Qed.

(** A run with at least one query holds its query. *)
Lemma exchange_among (query : Event) (evs : list Event) :
  Forall (fun ev => ev = query \/ exists d, ev = EvSleep d) evs ->
  attempts evs <> O ->
  In query evs.
Proof.
  induction 1 as [|ev evs [-> | [d ->]] _ IH]; simpl; intros Hn.
  - congruence.
  - now left.
  - right. now apply IH.
Qed.

(** What one job costs, when the resolver returns. *)
Lemma processDomain_cost
    (config : Config) (env : Env) (domain server : string) (t : nat) :
  0 <= retries config < max_int ->
  exists evs t',
    processDomain config env domain server t = (evs, Some (tt, t')) /\
    In (EvExchange (fqdn domain) (server ++ ":53")) evs /\
    (1 <= attempts evs)%nat /\
    Z.of_nat (attempts evs) <= retries config + 1 /\
    (List.length (resultLines evs) <= 2)%nat.
Proof.
  intros Hr.
  destruct (processDomain_returns config env domain server t) as [evs [t' Hrun]];
    [lia|].
  destruct (getCNAMEWithRetry_delays config env domain server t Hr)
    as [evs0 [answer [t0 [Hrun0 [H1 [H2 _]]]]]].
  destruct (processDomain_prefix config env domain server t) as [tail Hpre].
  destruct (processDomain_outputs config env domain server t) as [Hatt [cname Hout]].
  pose proof (retryLoop_events config env domain server (retryFuel config) 0 None t)
    as Hall.
  change (retryLoop config env (retryFuel config) domain server 0 None t)
    with (getCNAMEWithRetry config env domain server t) in Hall.
  unfold events in Hpre, Hatt, Hout.
  rewrite Hrun in Hpre, Hatt, Hout. rewrite Hrun0 in Hpre, Hatt, Hall.
  cbn [fst] in *.
  exists evs, t'. split; [exact Hrun|]. split; [|split; [lia | split; [lia|]]].
  - rewrite Hpre. apply in_or_app. left.
    apply exchange_among; [exact Hall | lia].
  - destruct Hout as [H | [H | [H | [H | [H | [service H]]]]]];
      destruct H as [-> _]; simpl; lia.
Qed.

(** X9: one worker goes through every job it receives, whatever happens to
    the jobs before: for [0 <= retries < 2^63 - 1] and any network behaviour
    it returns, having made for each of its jobs at least one lookup attempt,
    a call of [ExchangeContext] with the question for the job's domain and
    the address of the job's server; over [n] jobs it makes between [n] and
    [n * (retries + 1)] such calls and sends at most [2 * n] findings. *)
Theorem worker_processes_every_job
    (config : Config) (env : Env) (jobs : list job) (t : nat) :
  0 <= retries config < max_int ->
  exists evs t',
    worker config env jobs t = (evs, Some (tt, t')) /\
    (forall j, In j jobs ->
       In (EvExchange (fqdn (domain j)) (server j ++ ":53")) evs) /\
    (List.length jobs <= attempts evs)%nat /\
    Z.of_nat (attempts evs) <= Z.of_nat (List.length jobs) * (retries config + 1) /\
    (List.length (resultLines evs) <= 2 * List.length jobs)%nat.
Proof.
  intros Hr. revert t.
  induction jobs as [|j rest IH]; intros t.
  - exists [], t. split; [reflexivity|]. split; [intros j []|]. simpl. lia.
  - destruct (processDomain_cost config env (domain j) (server j) t Hr)
      as [evs [t' [Hrun [Hq [H1 [H2 H3]]]]]].
    destruct (IH t') as [evs' [t'' [Hrun' [Hq' [H1' [H2' H3']]]]]].
    exists (evs ++ evs')%list, t''.
    rewrite worker_cons, Hrun, Hrun'.
    split; [reflexivity|].
    rewrite attempts_app, resultLines_app, length_app.
    cbn [List.length]. repeat split; try lia.
    intros j' [<- | Hin]; apply in_or_app; [now left | right; now apply Hq'].
Qed.

Lemma worker_processes_every_job_witness :
  exists evs t',
    worker defaultConfig sampleEnv sampleJobs 0%nat = (evs, Some (tt, t')) /\
    In (EvExchange "abandoned.example.com." "1.1.1.1:53") evs.
Proof.
  destruct (worker_processes_every_job defaultConfig sampleEnv sampleJobs 0%nat)
    as [evs [t' [Hrun [Hq _]]]].
  - simpl. unfold max_int. lia.
  - exists evs, t'. split; [exact Hrun|].
    apply (Hq (mkJob "abandoned.example.com" "1.1.1.1")). right. now left.
Defined.

(** X10: from the input to the output: whichever of the dispatched jobs a
    worker receives, every line it sends renders a finding whose domain is
    the trimmed, lowercased text of one of the input lines, and is not
    empty. *)
Theorem pipeline_findings_name_input_lines
    (caseTable : Z -> Z) (flags : Config) (rnd : nat -> nat) (lines : list string)
    (env : Env) (jobs received : list job) (t : nat) (line : string) :
  mainJobs caseTable flags rnd lines = Sends jobs ->
  (forall j, In j received -> In j jobs) ->
  In line (resultLines (events (worker (mainConfig flags) env received) t)) ->
  exists raw f,
    In raw lines /\
    line = render f /\
    findingDomain f = strings.ToLowerUTF8 caseTable (strings.TrimSpace raw) /\
    findingDomain f <> "".
Proof.
  intros Hjobs Hsub Hline.
  destruct (worker_lines _ _ _ _ _ Hline) as [j [f [Hj [Hf Hd]]]].
  destruct (dispatch_jobs caseTable (mainConfig flags) rnd lines) with (k := O)
    as [jobs' [Hrun [Hdom _]]]; [discriminate|].
  apply mainJobs_sent in Hjobs. rewrite Hrun in Hjobs. injection Hjobs as ->.
  assert (Hin : In (domain j) (map domain jobs)) by (apply in_map; auto).
  rewrite Hdom in Hin. apply filter_In in Hin. destruct Hin as [Hin Hne].
  apply in_map_iff in Hin. destruct Hin as [raw [Hraw Hin]].
  exists raw, f. repeat split; auto.
  - now rewrite Hd, Hraw.
  - rewrite Hd. intros E. rewrite E in Hne. discriminate.
Qed.

Lemma pipeline_findings_name_input_lines_witness :
  exists raw f,
    In raw [nbsp ++ "Abandoned.Example.COM " ++ nbsp; ""] /\
    render (Dangling "abandoned.example.com" "bucket.s3.amazonaws.com") = render f /\
    findingDomain f = strings.ToLowerUTF8 (fun r => r) (strings.TrimSpace raw) /\
    findingDomain f <> "".
Proof.
  apply (pipeline_findings_name_input_lines (fun r => r) defaultConfig (fun _ => O)
           [nbsp ++ "Abandoned.Example.COM " ++ nbsp; ""] sampleEnv
           [mkJob "abandoned.example.com" "1.1.1.1"]
           [mkJob "abandoned.example.com" "1.1.1.1"] 0%nat).
  - vm_compute. reflexivity.
  - auto.
  - vm_compute. now left.
Defined.

(** ** A pool without workers *)

(** X13: [main] needs workers.  With a negative [concurrency] it panics
    when it makes its channels, before it reads a line.  With [concurrency]
    zero it starts no worker: the send of the job of the first line that is
    not blank never completes, and no job is ever processed; only an input
    of blank lines lets it end, with no job sent. *)
Theorem mainJobs_without_workers
    (caseTable : Z -> Z) (flags : Config) (rnd : nat -> nat) (lines : list string) :
  (concurrency flags < 0 -> mainJobs caseTable flags rnd lines = Panics) /\
  (concurrency flags = 0 ->
     (forall before first after,
        lines = (before ++ first :: after)%list ->
        (forall line, In line before ->
           strings.ToLowerUTF8 caseTable (strings.TrimSpace line) = "") ->
        strings.ToLowerUTF8 caseTable (strings.TrimSpace first) <> "" ->
        exists server,
          In server defaultResolvers /\
          mainJobs caseTable flags rnd lines =
            Blocks (mkJob (strings.ToLowerUTF8 caseTable (strings.TrimSpace first))
                          server)) /\
     ((forall line, In line lines ->
         strings.ToLowerUTF8 caseTable (strings.TrimSpace line) = "") ->
      mainJobs caseTable flags rnd lines = Sends [])).
Proof.
  split.
  - intros Hneg. unfold mainJobs. cbv zeta. cbn [concurrency mainConfig].
    unfold makeChan at 2.
    assert (H : (concurrency flags <? 0) = true) by (apply Z.ltb_lt; lia).
    rewrite H. now destruct (makeChan _).
  - intros Hzero.
    destruct (dispatch_jobs caseTable (mainConfig flags) rnd lines) with (k := O)
      as [jobs [Hrun [Hdom Hsrv]]]; [discriminate|].
    assert (Hmain : mainJobs caseTable flags rnd lines =
                    match jobs with [] => Sends [] | j :: _ => Blocks j end).
    { unfold mainJobs. cbv zeta. rewrite Hrun.
      cbn [concurrency mainConfig]. rewrite Hzero.
      now destruct jobs. }
    split.
    + intros before first after -> Hblank Hfirst.
      assert (Hfilter : map domain jobs =
        strings.ToLowerUTF8 caseTable (strings.TrimSpace first) ::
        filter (fun d => negb (String.eqb d ""))
          (map (fun line => strings.ToLowerUTF8 caseTable (strings.TrimSpace line))
               after)).
      { rewrite Hdom, map_app, filter_app. cbn [map filter].
        apply String.eqb_neq in Hfirst. rewrite Hfirst. cbn [negb].
        assert (E : filter (fun d => negb (String.eqb d ""))
                      (map (fun line =>
                              strings.ToLowerUTF8 caseTable (strings.TrimSpace line))
                           before) = []).
        { clear Hrun Hdom Hsrv Hmain. induction before as [|l before IH];
            [reflexivity|].
          cbn [map filter]. rewrite (Hblank l) by now left. cbn.
          apply IH. intros l' Hl'. apply Hblank. now right. }
        now rewrite E. }
      destruct jobs as [|[d srv] rest]; [discriminate|].
      cbn [map domain] in Hfilter. injection Hfilter as -> _.
      exists srv. split; [|exact Hmain].
      apply nth_error_In with (n := (rnd O mod 8)%nat).
      exact (Hsrv O _ eq_refl).
    + intros Hblank.
      assert (E : map domain jobs = []).
      { rewrite Hdom. clear Hrun Hdom Hsrv Hmain.
        induction lines as [|l lines IH]; [reflexivity|].
        cbn [map filter]. rewrite (Hblank l) by now left. cbn.
        apply IH. intros l' Hl'. apply Hblank. now right. }
      destruct jobs; [exact Hmain | discriminate].
Qed.

Lemma mainJobs_without_workers_witness :
  mainJobs (fun r => r) (mkConfig (-1) (time.mul 5 time.Second) false [] 2)
    (fun _ => O) ["example.com"] = Panics /\
  exists server,
    In server defaultResolvers /\
    mainJobs (fun r => r) (mkConfig 0 (time.mul 5 time.Second) false [] 2)
      (fun _ => O) [nbsp; " Example.com"; "b.org"] =
    Blocks (mkJob (strings.ToLowerUTF8 (fun r => r) (strings.TrimSpace " Example.com"))
                  server).
Proof.
  split.
  - apply (mainJobs_without_workers (fun r => r)
             (mkConfig (-1) (time.mul 5 time.Second) false [] 2)
             (fun _ => O) ["example.com"]).
    simpl. lia.
  - destruct (mainJobs_without_workers (fun r => r)
                (mkConfig 0 (time.mul 5 time.Second) false [] 2)
                (fun _ => O) [nbsp; " Example.com"; "b.org"]) as [_ Hzero].
    destruct (Hzero eq_refl) as [Hblocks _].
    apply (Hblocks [nbsp] " Example.com" ["b.org"]).
    + reflexivity.
    + intros line [<- | []]. vm_compute. reflexivity.
    + vm_compute. discriminate.
Defined.

(** ** The name in the question *)

(** X12: the name [getCNAME] puts in its question is absolute: it ends in a
    dot, which is added only when the domain has none, so asking for a
    domain with or without its trailing dot sends the same query and gives
    the same result, and the name in the question without its root dot is
    the domain without its own. *)
Theorem getCNAME_question_is_absolute
    (env : Env) (domain server : string) (t : nat) :
  events (getCNAME env domain server) t
    = [EvExchange (fqdn domain) (server ++ ":53")] /\
  strings.HasSuffix (fqdn domain) "." = true /\
  strings.TrimSuffix (fqdn domain) "." = strings.TrimSuffix domain "." /\
  getCNAME env (fqdn domain) server t = getCNAME env domain server t.
Proof.
  assert (Hdot : forall d, strings.HasSuffix (d ++ ".") "." = true)
    by (intros d; apply HasSuffix_spec; now exists d).
  assert (Hidem : fqdn (fqdn domain) = fqdn domain).
  { unfold fqdn. destruct (strings.HasSuffix domain ".") eqn:E; cbn [negb].
    - now rewrite E.
    - now rewrite Hdot. }
  split; [unfold events; now rewrite getCNAME_run|]. split; [|split].
  - unfold fqdn. destruct (strings.HasSuffix domain ".") eqn:E; cbn [negb]; auto.
  - unfold fqdn. destruct (strings.HasSuffix domain ".") eqn:E; cbn [negb]; auto.
    rewrite TrimSuffix_append. unfold strings.TrimSuffix. now rewrite E.
  - now rewrite !getCNAME_run, Hidem.
Qed.
